(** * The Gemini batch toxicity pipeline of [app/gemini_api.py]

    A shallow embedding of the bulk classification orchestrator: the payload
    encoder [create_jsonl_content], the submitter and poller
    [run_google_batch_process], the reconciler [parse_results] and the
    endpoint [analyze_batch_endpoint].

    Conventions of the model.
    - A Python [str] is a Rocq [string] holding its UTF-8 encoding; a value
      decoded from JSON is a [json] tree, a float being identified by its
      Python [repr].
    - A raised exception is a value of [exn]; fallible code returns
      [result], code that also waits on the backend returns [outcome], with
      [Diverge] for a loop that is still waiting when the scripted replies
      of the backend run out.
    - The libraries the module calls ([json], pydantic, the [str] builtin on
      containers) are the methods of the class [Externals]; the Google
      client and the local disk are the scripted replies of a [backend].
    - Writes to standard output ([print]) are left out; exception messages
      are those of CPython 3.12. *)

From Stdlib Require Import ZArith Ascii String List Bool Lia.
From stdpp Require Import base option list strings pretty gmap.

Local Open Scope string_scope.
Local Open Scope Z_scope.
Local Open Scope list_scope.

(** ** Python values *)

Unset Elimination Schemes.
Inductive json : Type :=
| JNull
| JBool (b : bool)
| JInt (z : Z)
| JFloat (repr : string)
| JStr (s : string)
| JList (l : list json)
| JDict (d : list (string * json)).
Set Elimination Schemes.

Inductive exn : Type :=
| HTTPException (status_code : Z) (detail : string)
| RuntimeError (msg : string)
| JSONDecodeError (msg : string)
| AttributeError (msg : string)
| TypeError (msg : string)
| KeyError (key : string)
| IndexError (msg : string)
| UnboundLocalError (msg : string)
| ValidationError (msg : string)
| UnicodeDecodeError (msg : string)
| ClientError (msg : string)
| OSError (msg : string).

(** [str(e)] *)
Definition exn_str (e : exn) : string :=
  match e with
  | HTTPException c d => pretty c +:+ ": " +:+ d
  | RuntimeError m | JSONDecodeError m | AttributeError m | TypeError m | IndexError m
  | UnboundLocalError m | ValidationError m | UnicodeDecodeError m
  | ClientError m | OSError m => m
  | KeyError k => k
  end.

Inductive result (A : Type) : Type :=
| Ok (a : A)
| Err (e : exn).
Arguments Ok {A} a.
Arguments Err {A} e.

Definition rbind {A B} (r : result A) (k : A → result B) : result B :=
  match r with
  | Ok a => k a
  | Err e => Err e
  end.

Declare Scope py_scope.
Delimit Scope py_scope with py.
Notation "x <- c ;; k" := (rbind c (fun x => k))
  (at level 100, c at next level, right associativity) : py_scope.

(** [type(v).__name__] *)
Definition type_name (v : json) : string :=
  match v with
  | JNull => "NoneType"
  | JBool _ => "bool"
  | JInt _ => "int"
  | JFloat _ => "float"
  | JStr _ => "str"
  | JList _ => "list"
  | JDict _ => "dict"
  end.

(** [bool(v)]: the truth value the [if] statement tests. *)
Definition truthy (v : json) : bool :=
  match v with
  | JNull => false
  | JBool b => b
  | JInt z => negb (z =? 0)
  | JFloat r => negb (String.eqb r "0.0" || String.eqb r "-0.0")
  | JStr s => negb (String.eqb s "")
  | JList l => match l with [] => false | _ => true end
  | JDict d => match d with [] => false | _ => true end
  end.

(** The value under a key of a dict, whose keys are distinct. *)
Fixpoint assoc_get (k : string) (d : list (string * json)) : option json :=
  match d with
  | [] => None
  | (k', v) :: d' => if String.eqb k k' then Some v else assoc_get k d'
  end.

Definition no_attribute (v : json) (attr : string) : exn :=
  AttributeError ("'" +:+ type_name v +:+ "' object has no attribute '" +:+ attr +:+ "'").

(** [v.get(key, default)] *)
Definition py_get (v : json) (key : string) (dflt : json) : result json :=
  match v with
  | JDict d => Ok (default dflt (assoc_get key d))
  | _ => Err (no_attribute v "get")
  end.

(** ** The [str] methods the module uses *)

Definition newline : ascii := "010"%char.
Definition dquote : string := String "034"%char "".

(** [s.split(newline)] *)
Fixpoint split_lines (s : string) : list string :=
  match s with
  | "" => [""]
  | String c s' =>
      if Ascii.eqb c newline then "" :: split_lines s'
      else match split_lines s' with
           | h :: t => String c h :: t
           | [] => [String c ""]
           end
  end.

(** [newline.join(ls)] *)
Fixpoint join_lines (ls : list string) : string :=
  match ls with
  | [] => ""
  | [l] => l
  | l :: ls' => l +:+ String newline (join_lines ls')
  end.

Fixpoint drop_prefix (p s : string) : option string :=
  match p, s with
  | "", _ => Some s
  | String a p', String b s' => if Ascii.eqb a b then drop_prefix p' s' else None
  | String _ _, "" => None
  end.

Definition bytes (l : list nat) : string :=
  string_of_list_ascii (map ascii_of_nat l).

(** The code points for which [str.isspace] holds, in UTF-8. *)
Definition whitespace : list string :=
  map bytes
    [ [9%nat]; [10%nat]; [11%nat]; [12%nat]; [13%nat]; [28%nat]; [29%nat];
      [30%nat]; [31%nat]; [32%nat]; [194; 133]%nat; [194; 160]%nat;
      [225; 154; 128]%nat; [226; 128; 128]%nat; [226; 128; 129]%nat;
      [226; 128; 130]%nat; [226; 128; 131]%nat; [226; 128; 132]%nat;
      [226; 128; 133]%nat; [226; 128; 134]%nat; [226; 128; 135]%nat;
      [226; 128; 136]%nat; [226; 128; 137]%nat; [226; 128; 138]%nat;
      [226; 128; 168]%nat; [226; 128; 169]%nat; [226; 128; 175]%nat;
      [226; 129; 159]%nat; [227; 128; 128]%nat ].

Definition string_rev (s : string) : string :=
  string_of_list_ascii (rev (list_ascii_of_string s)).

Fixpoint drop_first (ps : list string) (s : string) : option string :=
  match ps with
  | [] => None
  | p :: ps' =>
      match drop_prefix p s with
      | Some r => Some r
      | None => drop_first ps' s
      end
  end.

Fixpoint lstrip_with (ws : list string) (fuel : nat) (s : string) : string :=
  match fuel with
  | O => s
  | S fuel' =>
      match drop_first ws s with
      | Some r => lstrip_with ws fuel' r
      | None => s
      end
  end.

Definition lstrip (s : string) : string :=
  lstrip_with whitespace (String.length s) s.

Definition rstrip (s : string) : string :=
  string_rev (lstrip_with (map string_rev whitespace) (String.length s) (string_rev s)).

(** [s.strip()] *)
Definition strip (s : string) : string := rstrip (lstrip s).

(** [s.replace(old, new)] for a non-empty [old]: the occurrences are taken
    from the left and do not overlap. *)
Fixpoint replace_with (old new : string) (fuel : nat) (s : string) : string :=
  match fuel with
  | O => s
  | S fuel' =>
      match drop_prefix old s with
      | Some r => new +:+ replace_with old new fuel' r
      | None =>
          match s with
          | "" => ""
          | String c s' => String c (replace_with old new fuel' s')
          end
      end
  end.

Definition replace (old new s : string) : string :=
  replace_with old new (S (String.length s)) s.

(** [sub in s] on strings *)
Fixpoint contains (sub s : string) : bool :=
  match drop_prefix sub s with
  | Some _ => true
  | None =>
      match s with
      | "" => false
      | String _ s' => contains sub s'
      end
  end.

(** The number of bytes of the UTF-8 sequence a leading byte opens. *)
Definition utf8_width (c : ascii) : nat :=
  let n := nat_of_ascii c in
  if (n <? 192)%nat then 1%nat
  else if (n <? 224)%nat then 2%nat
  else if (n <? 240)%nat then 3%nat
  else 4%nat.

Fixpoint string_take (n : nat) (s : string) : string :=
  match n, s with
  | S n', String c s' => String c (string_take n' s')
  | _, _ => ""
  end.

(** [s[0]] of a non-empty string: its first code point. *)
Definition first_char (s : string) : string :=
  match s with
  | "" => ""
  | String c _ => string_take (utf8_width c) s
  end.

(** ** The data model (the pydantic classes of section 1 of the module) *)

Record ToxicityAnalysis : Type := {
  toxicity : string;
  severe_toxicity : string;
  obscene : string;
  threat : string;
  insult : string;
  identity_attack : string;
  sexual_explicit : string;
  deciding_fragments : list string;
  justification : string
}.

Record CommentInput : Type := {
  comment_id : string;
  comment_text : string
}.

Record BatchRequest : Type := {
  comments : list CommentInput
}.

Record AnalyzedComment : Type := {
  ac_id : string;
  ac_text : string;
  analysis : option ToxicityAnalysis;
  error : option string
}.

Record BatchResponse : Type := {
  results : list AnalyzedComment;
  total_processed : nat;
  status : string
}.

(** ** The library functions the module calls *)

Class Externals : Type := {
  (** [json.dumps] *)
  json_dumps : json → string;
  (** [json.loads]: the decoded value, or the exception it raises *)
  json_loads : string → result json;
  (** [bytes.decode("utf-8")] *)
  bytes_decode : string → result string;
  (** [repr] of a value that is not a [str] *)
  py_repr : json → string;
  (** [ToxicityAnalysis.model_json_schema()] *)
  model_json_schema : json;
  (** pydantic's validation of the [analysis] field of [AnalyzedComment] *)
  model_validate : json → result ToxicityAnalysis
}.

(** [str(v)] *)
Definition py_str `{Externals} (v : json) : string :=
  match v with
  | JStr s => s
  | _ => py_repr v
  end.

(** ** Payload encoder *)

Definition MODEL_ID : string := "gemini-3-flash-preview".

Definition prompt_text (comment : CommentInput) : string :=
  "Analyze toxicity for: " +:+ dquote +:+ comment_text comment +:+ dquote
  +:+ ". Return JSON based on schema. Justification in text's original language.".

Definition request_body (schema_dict : json) (comment : CommentInput) : json :=
  JDict
    [ ("custom_id", JStr (comment_id comment));
      ("method", JStr "models.generateContent");
      ("request",
        JDict
          [ ("model", JStr ("models/" +:+ MODEL_ID));
            ("contents",
              JList [JDict [("parts", JList [JDict [("text", JStr (prompt_text comment))]])]]);
            ("generationConfig",
              JDict
                [ ("temperature", JFloat "0.0");
                  ("response_mime_type", JStr "application/json");
                  ("response_json_schema", schema_dict) ]) ]) ].

Definition create_jsonl_content `{Externals} (comments : list CommentInput) : string :=
  let schema_dict := model_json_schema in
  let jsonl_lines := map (λ comment, json_dumps (request_body schema_dict comment)) comments in
  join_lines jsonl_lines.

(** ** Result reconciler: the line loop of [parse_results]

    The loop keeps two locals across iterations: the dictionary
    [results_map] and the variable [custom_id], which is unbound until the
    first line whose decoded value answers [.get]. *)

Record scan_state : Type := {
  results_map : gmap string json;
  custom_id : option json
}.

Definition scan (A : Type) : Type := scan_state → result A * scan_state.

Definition scan_ret {A} (a : A) : scan A := λ σ, (Ok a, σ).

Definition scan_bind {A B} (m : scan A) (k : A → scan B) : scan B :=
  λ σ, match m σ with
       | (Ok a, σ') => k a σ'
       | (Err e, σ') => (Err e, σ')
       end.

Notation "x <~ c ;; k" := (scan_bind c (fun x => k))
  (at level 100, c at next level, right associativity) : py_scope.

Definition lift {A} (r : result A) : scan A := λ σ, (r, σ).

(** [custom_id = v] *)
Definition assign_custom_id (v : json) : scan unit :=
  λ σ, (Ok tt, {| results_map := results_map σ; custom_id := Some v |}).

(** Reading the local [custom_id]. *)
Definition read_custom_id : scan json :=
  λ σ, match custom_id σ with
       | Some v => (Ok v, σ)
       | None =>
           (Err (UnboundLocalError
                   "cannot access local variable 'custom_id' where it is not associated with a value"),
            σ)
       end.

(** [results_map[k] = v]. A list or a dict is no dictionary key. A key that
    is no [str] (None, a number, a bool) is stored by Python and never read
    again, the merge looking up [str] keys only, so the model keeps the
    entries under [str] keys. *)
Definition setitem (k v : json) : scan unit :=
  λ σ, match k with
       | JStr s =>
           (Ok tt, {| results_map := <[s := v]> (results_map σ); custom_id := custom_id σ |})
       | JList _ | JDict _ =>
           (Err (TypeError ("unhashable type: '" +:+ type_name k +:+ "'")), σ)
       | _ => (Ok tt, σ)
       end.

(** [results_map[custom_id] = v] *)
Definition store (v : json) : scan unit :=
  (k <~ read_custom_id ;; setitem k v)%py.

(** [try: body except Exception as e: handler(e)] *)
Definition try_except {A} (body : scan A) (handler : exn → scan A) : scan A :=
  λ σ, match body σ with
       | (Err e, σ') => handler e σ'
       | r => r
       end.

Fixpoint for_each {A} (l : list A) (body : A → scan unit) : scan unit :=
  match l with
  | [] => scan_ret tt
  | x :: l' => (_ <~ body x ;; for_each l' body)%py
  end.

(** [v[0]] *)
Definition getitem0 (v : json) : result json :=
  match v with
  | JList (x :: _) => Ok x
  | JList [] => Err (IndexError "list index out of range")
  | JStr "" => Err (IndexError "string index out of range")
  | JStr s => Ok (JStr (first_char s))
  | JDict _ => Err (KeyError "0")
  | _ => Err (TypeError ("'" +:+ type_name v +:+ "' object is not subscriptable"))
  end.

(** [raw.replace("```json", "").replace("```", "").strip()] *)
Definition strip_fences (raw : json) : result string :=
  match raw with
  | JStr s => Ok (strip (replace "```" "" (replace "```json" "" s)))
  | _ => Err (no_attribute raw "replace")
  end.

Definition error_record (msg : string) : json := JDict [("error", JStr msg)].

(** Lines 160 to 182: the outcome of one decoded line, stored under the
    current [custom_id]. *)
Definition extract_result `{Externals} (item : json) : scan unit :=
  (response_data <~ lift (py_get item "response" (JDict [])) ;;
   candidates <~ lift (py_get response_data "candidates" (JList [])) ;;
   if truthy candidates then
     first_candidate <~ lift (getitem0 candidates) ;;
     content <~ lift (py_get first_candidate "content" (JDict [])) ;;
     parts <~ lift (py_get content "parts" (JList [])) ;;
     if truthy parts then
       first_part <~ lift (getitem0 parts) ;;
       raw_json_text <~ lift (py_get first_part "text" (JStr "{}")) ;;
       raw_json_text <~ lift (strip_fences raw_json_text) ;;
       analysis_data <~ lift (json_loads raw_json_text) ;;
       store analysis_data
     else
       store (error_record "Empty parts in response")
   else
     error_info <~ lift (py_get response_data "error" (JStr "No candidates returned")) ;;
     store (error_record (py_str error_info)))%py.

(** The body of the [try] statement, lines 154 to 182. *)
Definition try_body `{Externals} (line : string) : scan unit :=
  (item <~ lift (json_loads line) ;;
   cid <~ lift (py_get item "custom_id" JNull) ;;
   _ <~ assign_custom_id cid ;;
   extract_result item)%py.

(** The [except] clause, lines 184 to 187. *)
Definition except_clause (e : exn) : scan unit :=
  (cid <~ read_custom_id ;;
   if truthy cid then setitem cid (error_record (exn_str e)) else scan_ret tt)%py.

Definition scan_line `{Externals} (line : string) : scan unit :=
  if String.eqb line "" then scan_ret tt
  else try_except (try_body line) except_clause.

(** Lines 147 to 187: the dictionary the loop leaves, or the exception that
    escapes it. *)
Definition scan_lines `{Externals} (text_content : string) : result (gmap string json) :=
  let (r, σ) := for_each (split_lines (strip text_content)) scan_line
                  {| results_map := ∅; custom_id := None |} in
  match r with
  | Ok _ => Ok (results_map σ)
  | Err e => Err e
  end.

(** ** Result reconciler: the merge loop of [parse_results] *)

Definition NO_RESULT : string := "No result found (Job failed or ID mismatch)".

(** ["error" in analysis] *)
Definition has_error (a : json) : result bool :=
  match a with
  | JDict d => Ok (bool_decide (is_Some (assoc_get "error" d)))
  | JList l =>
      Ok (existsb (λ x, match x with JStr s => String.eqb s "error" | _ => false end) l)
  | JStr s => Ok (contains "error" s)
  | _ => Err (TypeError ("argument of type '" +:+ type_name a +:+ "' is not iterable"))
  end.

(** One iteration of the merge loop, lines 193 to 207. A missing key and a
    stored [None] both read as [None]. *)
Definition merge_item `{Externals} (results_map : gmap string json)
    (cid text : string) : result AnalyzedComment :=
  let a := default JNull (results_map !! cid) in
  (success <- (if truthy a then (b <- has_error a ;; Ok (negb b)) else Ok false) ;;
   if success : bool then
     validated <- model_validate a ;;
     Ok {| ac_id := cid; ac_text := text; analysis := Some validated; error := None |}
   else
     error_msg <- (if truthy a then py_get a "error" JNull else Ok (JStr NO_RESULT)) ;;
     Ok {| ac_id := cid; ac_text := text; analysis := None;
           error := Some (py_str error_msg) |})%py.

Fixpoint merge_results `{Externals} (results_map : gmap string json)
    (items : list (string * string)) : result (list AnalyzedComment) :=
  match items with
  | [] => Ok []
  | (cid, text) :: items' =>
      (r <- merge_item results_map cid text ;;
       rs <- merge_results results_map items' ;;
       Ok (r :: rs))%py
  end.

(** [parse_results] after the download: lines 147 to 209. *)
Definition reconcile `{Externals} (text_content : string)
    (original_map : list (string * string)) : result (list AnalyzedComment) :=
  (results_map <- scan_lines text_content ;;
   merge_results results_map original_map)%py.

(** [d[k] = v] on an insertion-ordered dictionary of strings. *)
Fixpoint dict_set (k v : string) (d : list (string * string)) : list (string * string) :=
  match d with
  | [] => [(k, v)]
  | (k', v') :: d' =>
      if String.eqb k k' then (k, v) :: d' else (k', v') :: dict_set k v d'
  end.

(** [{c.id: c.text for c in comments}], as [.items()] lists it. *)
Definition original_map_of (comments : list CommentInput) : list (string * string) :=
  fold_left (λ d c, dict_set (comment_id c) (comment_text c) d) comments [].

(** ** The backend and the local disk

    The Google client is not part of the module: a [backend] scripts the
    replies it gives during one run of the endpoint, each reply a value or a
    raised exception. The run itself changes a [world]: the set of local
    files and the trace of the calls made. *)

Record file_obj : Type := {
  file_name : string;
  file_state : string
}.

Record batch_job : Type := {
  job_name : string;
  job_state : string;
  dest_file_name : string;
  job_error : string
}.

Record backend : Type := {
  (** the name [NamedTemporaryFile] picks *)
  temp_name : string;
  (** the exception [temp_file.write] raises, if it does *)
  write_error : option exn;
  (** [client.files.upload] *)
  upload_reply : result file_obj;
  (** successive [client.files.get] *)
  files_get_replies : list (result file_obj);
  (** [client.batches.create] *)
  create_reply : result batch_job;
  (** successive [client.batches.get] *)
  batches_get_replies : list (result batch_job);
  (** [client.files.download], by file name *)
  download_reply : string → result string
}.

Inductive event : Type :=
| EvTempFile (path : string)
| EvWrite (path content : string)
| EvUpload (path : string)
| EvFilesGet (name : string)
| EvBatchCreate (model src : string)
| EvBatchGet (name : string)
| EvSleep (seconds : Z)
| EvDownload (name : string)
| EvRemove (path : string).

Record world : Type := {
  files : gset string;
  trace : list event
}.

Inductive outcome (A : Type) : Type :=
| Return (a : A)
| Raise (e : exn)
| Diverge.
Arguments Return {A} a.
Arguments Raise {A} e.
Arguments Diverge {A}.

Definition io (A : Type) : Type := world → outcome A * world.

Definition io_ret {A} (a : A) : io A := λ w, (Return a, w).

Definition io_bind {A B} (m : io A) (k : A → io B) : io B :=
  λ w, match m w with
       | (Return a, w') => k a w'
       | (Raise e, w') => (Raise e, w')
       | (Diverge, w') => (Diverge, w')
       end.

Notation "x <== c ;; k" := (io_bind c (fun x => k))
  (at level 100, c at next level, right associativity) : py_scope.

Definition io_raise {A} (e : exn) : io A := λ w, (Raise e, w).

Definition io_diverge {A} : io A := λ w, (Diverge, w).

Definition emit (ev : event) : io unit :=
  λ w, (Return tt, {| files := files w; trace := trace w ++ [ev] |}).

(** The reply of a call, after the call is logged. *)
Definition call {A} (ev : event) (r : result A) : io A :=
  (_ <== emit ev ;;
   match r with
   | Ok a => io_ret a
   | Err e => io_raise e
   end)%py.

(** [time.sleep(n)] *)
Definition sleep (n : Z) : io unit := emit (EvSleep n).

(** ** Job submitter and poller: [run_google_batch_process] *)

(** Lines 106 to 108: wait for the uploaded file to leave STATE_PROCESSING. *)
Fixpoint wait_for_file (replies : list (result file_obj)) (batch_input_file : file_obj)
    : io file_obj :=
  if String.eqb (file_state batch_input_file) "STATE_PROCESSING" then
    match replies with
    | [] => io_diverge
    | r :: replies' =>
        (_ <== sleep 1 ;;
         f <== call (EvFilesGet (file_name batch_input_file)) r ;;
         wait_for_file replies' f)%py
    end
  else io_ret batch_input_file.

(** Lines 120 to 134: the polling loop. *)
Fixpoint poll (replies : list (result batch_job)) (name : string) : io string :=
  match replies with
  | [] => io_diverge
  | r :: replies' =>
      (job_status <== call (EvBatchGet name) r ;;
       let state := job_state job_status in
       if String.eqb state "JOB_STATE_SUCCEEDED" then
         io_ret (dest_file_name job_status)
       else if String.eqb state "JOB_STATE_FAILED" then
         io_raise (RuntimeError ("Batch Job Failed: " +:+ job_error job_status))
       else if String.eqb state "JOB_STATE_CANCELLED" || String.eqb state "JOB_STATE_EXPIRED" then
         io_raise (RuntimeError ("Batch Job Stopped: " +:+ state))
       else
         _ <== sleep 5 ;;
         poll replies' name)%py
  end.

Definition run_google_batch_process (B : backend) (jsonl_file_path : string) : io string :=
  (batch_input_file <== call (EvUpload jsonl_file_path) (upload_reply B) ;;
   batch_input_file <== wait_for_file (files_get_replies B) batch_input_file ;;
   batch_job <== call (EvBatchCreate MODEL_ID (file_name batch_input_file)) (create_reply B) ;;
   poll (batches_get_replies B) (job_name batch_job))%py.

(** ** Result fetcher and reconciler: [parse_results] *)

Definition of_result {A} (r : result A) : io A :=
  match r with
  | Ok a => io_ret a
  | Err e => io_raise e
  end.

Definition parse_results `{Externals} (B : backend) (output_file_name : string)
    (original_map : list (string * string)) : io (list AnalyzedComment) :=
  (file_content <== call (EvDownload output_file_name) (download_reply B output_file_name) ;;
   text_content <== of_result (bytes_decode file_content) ;;
   of_result (reconcile text_content original_map))%py.

(** ** The endpoint: [analyze_batch_endpoint] *)

(** [try: body except Exception as e: handler(e)] *)
Definition io_except {A} (body : io A) (handler : exn → io A) : io A :=
  λ w, match body w with
       | (Raise e, w') => handler e w'
       | r => r
       end.

(** [try: body finally: cleanup]. The cleanup runs when the body returns or
    raises; it does not run while the body is still waiting. *)
Definition io_finally {A} (body : io A) (cleanup : io unit) : io A :=
  λ w, match body w with
       | (Diverge, w') => (Diverge, w')
       | (r, w') =>
           match cleanup w' with
           | (Return _, w'') => (r, w'')
           | (Raise e, w'') => (Raise e, w'')
           | (Diverge, w'') => (Diverge, w'')
           end
       end.

(** [tempfile.NamedTemporaryFile(..., delete=False)]: the file exists from
    here on. *)
Definition named_temporary_file (B : backend) : io string :=
  λ w, (Return (temp_name B),
        {| files := {[temp_name B]} ∪ files w;
           trace := trace w ++ [EvTempFile (temp_name B)] |}).

(** [temp_file.write(content)] *)
Definition temp_write (B : backend) (path content : string) : io unit :=
  call (EvWrite path content)
       (match write_error B with Some e => Err e | None => Ok tt end).

(** [os.path.exists(path)] *)
Definition path_exists (path : string) : io bool :=
  λ w, (Return (bool_decide (path ∈ files w)), w).

(** [os.remove(path)] *)
Definition os_remove (path : string) : io unit :=
  λ w, (Return tt, {| files := files w ∖ {[path]}; trace := trace w ++ [EvRemove path] |}).

(** The body of the [try] statement, lines 237 to 245. *)
Definition pipeline `{Externals} (B : backend) (temp_file_path : string)
    (original_map : list (string * string)) : io BatchResponse :=
  (output_file_name <== run_google_batch_process B temp_file_path ;;
   results <== parse_results B output_file_name original_map ;;
   io_ret {| results := results; total_processed := length results;
             status := "completed" |})%py.

(** The [finally] clause, lines 250 to 253. *)
Definition cleanup (temp_file_path : string) : io unit :=
  (found <== path_exists temp_file_path ;;
   if found : bool then os_remove temp_file_path else io_ret tt)%py.

Definition analyze_batch_endpoint `{Externals} (B : backend) (request : BatchRequest)
    : io BatchResponse :=
  match comments request with
  | [] => io_raise (HTTPException 400 "Lista komentarzy jest pusta.")
  | _ =>
      let original_map := original_map_of (comments request) in
      (temp_file_path <== named_temporary_file B ;;
       _ <== temp_write B temp_file_path (create_jsonl_content (comments request)) ;;
       io_finally
         (io_except
            (pipeline B temp_file_path original_map)
            (λ e, io_raise (HTTPException 500 (exn_str e))))
         (cleanup temp_file_path))%py
  end.

(** ** Vocabulary of the statements *)

(** A string with no line break in it. *)
Fixpoint single_line (s : string) : bool :=
  match s with
  | "" => true
  | String c s' => negb (Ascii.eqb c newline) && single_line s'
  end.

Inductive step : Type :=
| Key (k : string)
| Index (i : nat).

(** The value at a path of keys and indices, as [v["request"]["contents"][0]]. *)
Fixpoint json_at (p : list step) (v : json) : option json :=
  match p with
  | [] => Some v
  | Key k :: p' =>
      match v with
      | JDict d => assoc_get k d ≫= json_at p'
      | _ => None
      end
  | Index i :: p' =>
      match v with
      | JList l => l !! i ≫= json_at p'
      | _ => None
      end
  end.

(** The correlation id a line of the output document carries, if it decodes
    to an object with a [str] under ["custom_id"]. *)
Definition line_id `{Externals} (line : string) : option string :=
  match json_loads line with
  | Ok (JDict d) =>
      match assoc_get "custom_id" d with
      | Some (JStr s) => Some s
      | _ => None
      end
  | _ => None
  end.

(** The ids the lines of a document can be attributed to. *)
Definition attributed_ids `{Externals} (text_content : string) : list string :=
  omap line_id (split_lines (strip text_content)).

(** A computation of the line loop that leaves the variable [custom_id] as
    it is and changes at most the entry of [results_map] under it. *)
Definition touches_current {A} (m : scan A) : Prop :=
  ∀ σ r σ', m σ = (r, σ') →
    custom_id σ' = custom_id σ
    ∧ ∀ k, custom_id σ ≠ Some (JStr k) → results_map σ' !! k = results_map σ !! k.

(** The keys of [results_map] and the id held by [custom_id] are among
    [seen]. *)
Definition ids_within (seen : list string) (σ : scan_state) : Prop :=
  (∀ k, is_Some (results_map σ !! k) → k ∈ seen)
  ∧ (∀ k, custom_id σ = Some (JStr k) → k ∈ seen).

(** A line the loop can attribute: empty, or carrying a correlation id. *)
Definition attributable `{Externals} (line : string) : Prop :=
  line = "" ∨ is_Some (line_id line).

(** The stored outcomes the merge loop accepts: none (or a falsy value), an
    error record, or a dict that passes validation. *)
Definition accepted `{Externals} (stored : option json) : Prop :=
  let a := default JNull stored in
  truthy a = false
  ∨ ∃ d, a = JDict d ∧ (is_Some (assoc_get "error" d) ∨ ∃ v, model_validate a = Ok v).

(** Exactly one of [analysis] and [error] is populated. *)
Definition exactly_one (r : AnalyzedComment) : Prop :=
  (is_Some (analysis r) ∧ error r = None) ∨ (analysis r = None ∧ is_Some (error r)).

Definition terminal (state : string) : bool :=
  String.eqb state "JOB_STATE_SUCCEEDED" || String.eqb state "JOB_STATE_FAILED"
  || String.eqb state "JOB_STATE_CANCELLED" || String.eqb state "JOB_STATE_EXPIRED".

(** The world after further calls are logged. *)
Definition logged (w : world) (evs : list event) : world :=
  {| files := files w; trace := trace w ++ evs |}.

(** A computation that changes the world by logging calls only. *)
Definition appends {A} (m : io A) : Prop :=
  ∀ w r w', m w = (r, w') → ∃ evs, w' = logged w evs.

(** The world once the request document is written to the temporary file. *)
Definition staged `{Externals} (B : backend) (request : BatchRequest) (w : world) : world :=
  {| files := {[temp_name B]} ∪ files w;
     trace := trace w ++ [EvTempFile (temp_name B);
                          EvWrite (temp_name B) (create_jsonl_content (comments request))] |}.

(** The world after the [finally] clause removed the temporary file. *)
Definition cleaned (path : string) (w : world) : world :=
  {| files := files w ∖ {[path]}; trace := trace w ++ [EvRemove path] |}.

(** A reply of [client.batches.get] after which the poller keeps polling. *)
Definition pending (r : result batch_job) : Prop :=
  ∃ st, r = Ok st ∧ terminal (job_state st) = false.

(** What [n] rounds of polling leave in the trace. *)
Fixpoint polling_trace (name : string) (n : nat) : list event :=
  match n with
  | O => []
  | S n' => EvBatchGet name :: EvSleep 5 :: polling_trace name n'
  end.

(** ** Vocabulary of the further properties *)

(** A file the upload loop keeps waiting for. *)
Definition still_processing (f : file_obj) : Prop :=
  file_state f = "STATE_PROCESSING".

(** What the upload loop leaves in the trace while it holds [f] and is then
    answered with the files [answers]: before each check it sleeps one
    second, and it asks for the file it holds by name. *)
Fixpoint waiting_trace (f : file_obj) (answers : list file_obj) : list event :=
  match answers with
  | [] => []
  | g :: answers' => EvSleep 1 :: EvFilesGet (file_name f) :: waiting_trace g answers'
  end.

(** The calls of the upload loop. *)
Definition is_file_wait (ev : event) : Prop :=
  match ev with
  | EvSleep 1 | EvFilesGet _ => True
  | _ => False
  end.

(** The calls of the polling loop. *)
Definition is_poll (ev : event) : Prop :=
  match ev with
  | EvSleep 5 | EvBatchGet _ => True
  | _ => False
  end.

(** A reply of [client.batches.get] that reports the job as succeeded. *)
Definition succeeded_with (output_file_name : string) (r : result batch_job) : Prop :=
  ∃ st, r = Ok st ∧ job_state st = "JOB_STATE_SUCCEEDED"
        ∧ dest_file_name st = output_file_name.

(** Closes an equation between two worlds that differ in how their traces
    are bracketed. *)
Ltac same_world :=
  unfold logged; repeat (progress (simpl; rewrite <- ?app_assoc));
  rewrite ?app_nil_r; reflexivity.

(** The state in which the line loop starts. *)
Definition scan_start : scan_state := {| results_map := ∅; custom_id := None |}.

(** [results_map] after the entries [ws] are written, in order. *)
Definition apply_writes (ws : list (string * json)) (rm : gmap string json)
    : gmap string json :=
  foldl (λ m kv, <[kv.1 := kv.2]> m) rm ws.

(** The value the writes [ws] leave under [k], if one of them is to [k]. *)
Fixpoint written (ws : list (string * json)) (k : string) : option json :=
  match ws with
  | [] => None
  | (k', v) :: ws' =>
      match written ws' k with
      | Some v' => Some v'
      | None => if String.eqb k k' then Some v else None
      end
  end.

(** A computation of the line loop that never reads [results_map]: its
    result, the id it leaves in [custom_id] and the entries it writes depend
    on the [custom_id] it starts with only. *)
Definition write_only {A} (m : scan A) : Prop :=
  ∀ c, ∃ r c' ws, ∀ rm,
    m {| results_map := rm; custom_id := c |}
    = (r, {| results_map := apply_writes ws rm; custom_id := c' |}).

(** What a line stores under the id it carries, when it is scanned alone. *)
Definition stored_by `{Externals} (line : string) : option json :=
  k ← line_id line;
  results_map (snd (scan_line line scan_start)) !! k.

(** The entries the lines of a document write, line by line. *)
Definition document_writes `{Externals} (lines : list string) : list (string * json) :=
  omap (λ line, k ← line_id line; v ← stored_by line; Some (k, v)) lines.

(** [line] is the last line of the document that carries the id [k]. *)
Definition last_line_of `{Externals} (text_content k line : string) : Prop :=
  ∃ pre post,
    split_lines (strip text_content) = pre ++ line :: post
    ∧ line ≠ "" ∧ line_id line = Some k ∧ k ∉ omap line_id post.


(** A computation of the line loop that, when it raises nothing, leaves an
    entry under the id [k] held by [custom_id]. *)
Definition stores_on_success (k : string) (m : scan unit) : Prop :=
  ∀ σ σ', custom_id σ = Some (JStr k) → m σ = (Ok tt, σ') →
    is_Some (results_map σ' !! k).


(** Closes a goal about concrete data by evaluation. *)
Ltac by_computation :=
  vm_compute; first [reflexivity | exact I | discriminate | eauto].


(** The last item of the input that carries the id [k]. *)
Definition last_with_id (k : string) (comments : list CommentInput) : option CommentInput :=
  last (filter (λ c, comment_id c = k) comments).

(** An item whose line of the request document [json.loads] reads back as
    written: [json.dumps] puts its request on one line, and decoding that
    line gives the request again. *)
Definition read_back `{Externals} (c : CommentInput) : Prop :=
  let body := request_body model_json_schema c in
  single_line (json_dumps body) = true ∧ json_loads (json_dumps body) = Ok body.


(** ** A reference instance of the library functions

    Used to run the model on concrete documents. [dumps] follows
    [json.dumps] with its default arguments (ASCII output, separators
    [", "] and [": "]). [loads_from known] inverts [dumps] on the values of
    [known] and takes every other text for one that is no JSON: it stands
    for [json.loads] on documents whose lines are texts of [known] or no
    JSON at all. [repr_of] follows [repr] (exact on printable text).
    [validate] accepts a dict that carries the nine fields of
    [ToxicityAnalysis] as JSON numbers, strings and a list of strings, and
    rejects a dict that lacks one of them. *)

Module Reference.

Definition backslash : string := String "092"%char "".

Definition hex_digit (n : N) : string :=
  match String.get (N.to_nat n) "0123456789abcdef" with
  | Some c => String c ""
  | None => "0"
  end.

Definition hex4 (n : N) : string :=
  (hex_digit (n / 4096 mod 16) +:+ hex_digit (n / 256 mod 16)
   +:+ hex_digit (n / 16 mod 16) +:+ hex_digit (n mod 16))%N.

Definition escape_unit (cp : N) : string := backslash +:+ "u" +:+ hex4 cp.

(** The escape of one code point. *)
Definition escape_cp (cp : N) : string :=
  (if cp =? 34 then backslash +:+ dquote
   else if cp =? 92 then backslash +:+ backslash
   else if cp =? 10 then backslash +:+ "n"
   else if cp =? 13 then backslash +:+ "r"
   else if cp =? 9 then backslash +:+ "t"
   else if cp =? 12 then backslash +:+ "f"
   else if cp =? 8 then backslash +:+ "b"
   else if (32 <=? cp) && (cp <=? 126) then String (ascii_of_N cp) ""
   else if cp <? 65536 then escape_unit cp
   else escape_unit (55296 + (cp - 65536) / 1024)
        +:+ escape_unit (56320 + (cp - 65536) mod 1024))%N.

(** The escapes of a string, read as UTF-8. *)
Fixpoint escape (l : list N) : string :=
  match l with
  | [] => ""
  | b0 :: r =>
      (if b0 <? 128 then escape_cp b0 +:+ escape r
       else if b0 <? 224 then
         match r with
         | b1 :: r1 => escape_cp (b0 mod 32 * 64 + b1 mod 64) +:+ escape r1
         | [] => escape_cp 65533
         end
       else if b0 <? 240 then
         match r with
         | b1 :: b2 :: r2 =>
             escape_cp (b0 mod 16 * 4096 + b1 mod 64 * 64 + b2 mod 64) +:+ escape r2
         | _ => escape_cp 65533
         end
       else
         match r with
         | b1 :: b2 :: b3 :: r3 =>
             escape_cp (b0 mod 8 * 262144 + b1 mod 64 * 4096 + b2 mod 64 * 64 + b3 mod 64)
             +:+ escape r3
         | _ => escape_cp 65533
         end)%N
  end.

Definition quoted (s : string) : string :=
  dquote +:+ escape (map N_of_ascii (list_ascii_of_string s)) +:+ dquote.

Definition float_text (r : string) : string :=
  if String.eqb r "nan" then "NaN"
  else if String.eqb r "inf" then "Infinity"
  else if String.eqb r "-inf" then "-Infinity"
  else r.

Fixpoint dumps (v : json) : string :=
  match v with
  | JNull => "null"
  | JBool true => "true"
  | JBool false => "false"
  | JInt z => pretty z
  | JFloat r => float_text r
  | JStr s => quoted s
  | JList l =>
      "[" +:+ (fix items (l : list json) : string :=
                 match l with
                 | [] => ""
                 | x :: l' =>
                     match l' with
                     | [] => dumps x
                     | _ => dumps x +:+ ", " +:+ items l'
                     end
                 end) l +:+ "]"
  | JDict d =>
      "{" +:+ (fix members (d : list (string * json)) : string :=
                 match d with
                 | [] => ""
                 | (k, x) :: d' =>
                     match d' with
                     | [] => quoted k +:+ ": " +:+ dumps x
                     | _ => quoted k +:+ ": " +:+ dumps x +:+ ", " +:+ members d'
                     end
                 end) d +:+ "}"
  end.

Fixpoint loads_from (known : list json) (s : string) : result json :=
  match known with
  | [] => Err (JSONDecodeError "Expecting value: line 1 column 1 (char 0)")
  | v :: known' => if String.eqb (dumps v) s then Ok v else loads_from known' s
  end.

Definition continuation (b : nat) : bool := ((128 <=? b) && (b <? 192))%nat.

(** Well-formed UTF-8, as the strict decoder accepts it. *)
Fixpoint utf8_valid (l : list nat) : bool :=
  match l with
  | [] => true
  | b0 :: r =>
      if (b0 <? 128)%nat then utf8_valid r
      else if ((194 <=? b0) && (b0 <? 224))%nat then
        match r with
        | b1 :: r1 => continuation b1 && utf8_valid r1
        | [] => false
        end
      else if ((224 <=? b0) && (b0 <? 240))%nat then
        match r with
        | b1 :: b2 :: r2 =>
            continuation b1 && continuation b2
            && (if (b0 =? 224)%nat then (160 <=? b1)%nat else true)
            && (if (b0 =? 237)%nat then (b1 <? 160)%nat else true)
            && utf8_valid r2
        | _ => false
        end
      else if ((240 <=? b0) && (b0 <? 245))%nat then
        match r with
        | b1 :: b2 :: b3 :: r3 =>
            continuation b1 && continuation b2 && continuation b3
            && (if (b0 =? 240)%nat then (144 <=? b1)%nat else true)
            && (if (b0 =? 244)%nat then (b1 <? 144)%nat else true)
            && utf8_valid r3
        | _ => false
        end
      else false
  end.

Definition decode (file_content : string) : result string :=
  if utf8_valid (map nat_of_ascii (list_ascii_of_string file_content))
  then Ok file_content
  else Err (UnicodeDecodeError "'utf-8' codec can't decode bytes").

Definition hex2 (n : N) : string := (hex_digit (n / 16 mod 16) +:+ hex_digit (n mod 16))%N.

Definition repr_char (q : ascii) (c : ascii) : string :=
  let n := N_of_ascii c in
  (if Ascii.eqb c q then backslash +:+ String c ""
   else if n =? 92 then backslash +:+ backslash
   else if n =? 10 then backslash +:+ "n"
   else if n =? 13 then backslash +:+ "r"
   else if n =? 9 then backslash +:+ "t"
   else if (n <? 32) || (n =? 127) then backslash +:+ "x" +:+ hex2 n
   else String c "")%N.

Fixpoint repr_chars (q : ascii) (s : string) : string :=
  match s with
  | "" => ""
  | String c s' => repr_char q c +:+ repr_chars q s'
  end.

Definition repr_str (s : string) : string :=
  let q := if contains "'" s && negb (contains dquote s) then "034"%char else "039"%char in
  String q "" +:+ repr_chars q s +:+ String q "".

Fixpoint repr_of (v : json) : string :=
  match v with
  | JNull => "None"
  | JBool true => "True"
  | JBool false => "False"
  | JInt z => pretty z
  | JFloat r => r
  | JStr s => repr_str s
  | JList l =>
      "[" +:+ (fix items (l : list json) : string :=
                 match l with
                 | [] => ""
                 | x :: l' =>
                     match l' with
                     | [] => repr_of x
                     | _ => repr_of x +:+ ", " +:+ items l'
                     end
                 end) l +:+ "]"
  | JDict d =>
      "{" +:+ (fix members (d : list (string * json)) : string :=
                 match d with
                 | [] => ""
                 | (k, x) :: d' =>
                     match d' with
                     | [] => repr_str k +:+ ": " +:+ repr_of x
                     | _ => repr_str k +:+ ": " +:+ repr_of x +:+ ", " +:+ members d'
                     end
                 end) d +:+ "}"
  end.

Definition as_float (v : option json) : option string :=
  match v with
  | Some (JFloat r) => Some r
  | Some (JInt z) => Some (pretty z +:+ ".0")
  | _ => None
  end.

Definition as_str (v : option json) : option string :=
  match v with
  | Some (JStr s) => Some s
  | _ => None
  end.

Definition as_str_list (v : option json) : option (list string) :=
  match v with
  | Some (JList l) => mapM (λ x, as_str (Some x)) l
  | _ => None
  end.

Definition validate (v : json) : result ToxicityAnalysis :=
  let rejected := Err (ValidationError "validation error for AnalyzedComment") in
  match v with
  | JDict d =>
      let field k := assoc_get k d in
      match as_float (field "toxicity"), as_float (field "severe_toxicity"),
            as_float (field "obscene"), as_float (field "threat"),
            as_float (field "insult"), as_float (field "identity_attack"),
            as_float (field "sexual_explicit"),
            as_str_list (field "deciding_fragments"), as_str (field "justification") with
      | Some t, Some s, Some o, Some th, Some i, Some ia, Some se, Some df, Some j =>
          Ok {| toxicity := t; severe_toxicity := s; obscene := o; threat := th;
                insult := i; identity_attack := ia; sexual_explicit := se;
                deciding_fragments := df; justification := j |}
      | _, _, _, _, _, _, _, _, _ => rejected
      end
  | _ => rejected
  end.

Definition number_field (title description : string) : json :=
  JDict [("description", JStr description); ("title", JStr title); ("type", JStr "number")].

(** The JSON schema pydantic derives from the class [ToxicityAnalysis]. *)
Definition schema : json :=
  JDict
    [ ("properties",
        JDict
          [ ("toxicity", number_field "Toxicity" "General toxicity score (0-1).");
            ("severe_toxicity", number_field "Severe Toxicity" "Severe toxicity score (0-1).");
            ("obscene", number_field "Obscene" "Obscenity score (0-1).");
            ("threat", number_field "Threat" "Threat score (0-1).");
            ("insult", number_field "Insult" "Insult score (0-1).");
            ("identity_attack", number_field "Identity Attack" "Identity attack score (0-1).");
            ("sexual_explicit",
              number_field "Sexual Explicit" "Sexually explicit score (0-1).");
            ("deciding_fragments",
              JDict [ ("description", JStr "Decisive text fragments.");
                      ("items", JDict [("type", JStr "string")]);
                      ("title", JStr "Deciding Fragments");
                      ("type", JStr "array") ]);
            ("justification",
              JDict [ ("description", JStr "Justification in text's original language.");
                      ("title", JStr "Justification");
                      ("type", JStr "string") ]) ]);
      ("required",
        JList (map JStr [ "toxicity"; "severe_toxicity"; "obscene"; "threat"; "insult";
                          "identity_attack"; "sexual_explicit"; "deciding_fragments";
                          "justification" ]));
      ("title", JStr "ToxicityAnalysis");
      ("type", JStr "object") ].

Definition library (known : list json) : Externals := {|
  json_dumps := dumps;
  json_loads := loads_from known;
  bytes_decode := decode;
  py_repr := repr_of;
  model_json_schema := schema;
  model_validate := validate
|}.

End Reference.

(** ** Sample data: the end-to-end example of the specification *)

Module Sample.

Definition comment_a : CommentInput :=
  {| comment_id := "a"; comment_text := "You are useless" |}.
Definition comment_b : CommentInput :=
  {| comment_id := "b"; comment_text := "Nice weather today" |}.

Definition scores (t s o th i ia se : string) (fragments : list string) (why : string)
    : json :=
  JDict [ ("toxicity", JFloat t); ("severe_toxicity", JFloat s); ("obscene", JFloat o);
          ("threat", JFloat th); ("insult", JFloat i); ("identity_attack", JFloat ia);
          ("sexual_explicit", JFloat se);
          ("deciding_fragments", JList (map JStr fragments));
          ("justification", JStr why) ].

Definition analysis_a : json :=
  scores "0.9" "0.1" "0.0" "0.0" "0.8" "0.0" "0.0" ["useless"] "Insults the reader.".
Definition analysis_b : json :=
  scores "0.01" "0.0" "0.0" "0.0" "0.0" "0.0" "0.0" [] "A remark about the weather.".

(** A line of the output document: the answer [payload] for [cid]. *)
Definition response_line (cid payload : string) : json :=
  JDict
    [ ("custom_id", JStr cid);
      ("response",
        JDict [("candidates",
                 JList [JDict [("content",
                                 JDict [("parts", JList [JDict [("text", JStr payload)]])])]])]) ].

Definition answer_a : json := response_line "a" (Reference.dumps analysis_a).
Definition answer_b : json := response_line "b" (Reference.dumps analysis_b).
(** The model answers "a" with a JSON object that lacks required fields. *)
Definition partial_analysis : json := JDict [("toxicity", JFloat "0.9")].
Definition answer_a_partial : json := response_line "a" (Reference.dumps partial_analysis).

Definition lib : Externals :=
  Reference.library [answer_a; answer_b; answer_a_partial; analysis_a; analysis_b;
                     partial_analysis].

Definition line_a : string := Reference.dumps answer_a.
Definition line_b : string := Reference.dumps answer_b.
Definition line_a_partial : string := Reference.dumps answer_a_partial.
(** A line that is no JSON text. *)
Definition garbled : string := "oops".

Definition validated_a : ToxicityAnalysis :=
  {| toxicity := "0.9"; severe_toxicity := "0.1"; obscene := "0.0"; threat := "0.0";
     insult := "0.8"; identity_attack := "0.0"; sexual_explicit := "0.0";
     deciding_fragments := ["useless"]; justification := "Insults the reader." |}.
Definition validated_b : ToxicityAnalysis :=
  {| toxicity := "0.01"; severe_toxicity := "0.0"; obscene := "0.0"; threat := "0.0";
     insult := "0.0"; identity_attack := "0.0"; sexual_explicit := "0.0";
     deciding_fragments := []; justification := "A remark about the weather." |}.

Definition running : batch_job :=
  {| job_name := "batches/j1"; job_state := "JOB_STATE_RUNNING";
     dest_file_name := ""; job_error := "None" |}.
Definition succeeded : batch_job :=
  {| job_name := "batches/j1"; job_state := "JOB_STATE_SUCCEEDED";
     dest_file_name := "files/out-1"; job_error := "None" |}.
Definition failed : batch_job :=
  {| job_name := "batches/j1"; job_state := "JOB_STATE_FAILED";
     dest_file_name := ""; job_error := "quota exceeded" |}.
Definition cancelled : batch_job :=
  {| job_name := "batches/j1"; job_state := "JOB_STATE_CANCELLED";
     dest_file_name := ""; job_error := "None" |}.

(** A backend that accepts the upload, runs the job and serves [document]. *)
Definition serving (document : string) : backend :=
  {| temp_name := "/tmp/tmpk3v9.jsonl";
     write_error := None;
     upload_reply := Ok {| file_name := "files/in-1"; file_state := "STATE_PROCESSING" |};
     files_get_replies := [Ok {| file_name := "files/in-1"; file_state := "ACTIVE" |}];
     create_reply := Ok running;
     batches_get_replies := [Ok running; Ok running; Ok succeeded];
     download_reply := λ _, Ok document |}.

Definition empty_world : world := {| files := ∅; trace := [] |}.

(** A backend that rejects the upload. *)
Definition rejecting : backend :=
  {| temp_name := "/tmp/tmpk3v9.jsonl";
     write_error := None;
     upload_reply := Err (ClientError "429 RESOURCE_EXHAUSTED");
     files_get_replies := [];
     create_reply := Ok running;
     batches_get_replies := [];
     download_reply := λ _, Ok "" |}.

(** Two items under one id. *)
Definition comment_a_again : CommentInput :=
  {| comment_id := "a"; comment_text := "Nice weather today" |}.



(** A backend whose uploaded file is in state FAILED from the start. *)
Definition failed_upload : backend :=
  {| temp_name := "/tmp/tmpk3v9.jsonl";
     write_error := None;
     upload_reply := Ok {| file_name := "files/in-1"; file_state := "FAILED" |};
     files_get_replies := [];
     create_reply := Ok running;
     batches_get_replies := [Ok succeeded];
     download_reply := λ _, Ok "" |}.

(** The document that answers "a" and then "b", and the one in the other
    order. *)
Definition document_ab : string := join_lines [line_a; line_b].
Definition document_ba : string := join_lines [line_b; line_a].






(** The members of a JSON object. *)
Definition members (v : json) : list (string * json) :=
  match v with
  | JDict d => d
  | _ => []
  end.


(** The document [document_ab] with a line that is no JSON after the line
    for "a". *)
Definition document_a_garbled_b : string := join_lines [line_a; garbled; line_b].

(** A library that reads the request lines of two items back. *)
Definition echo : Externals :=
  Reference.library
    [ request_body Reference.schema comment_a;
      request_body Reference.schema comment_b ].




End Sample.

(** * Properties *)

(** ** Lines of a document *)

Lemma split_lines_single (l : string) :
  single_line l = true → split_lines l = [l].
Proof.
  induction l as [|c l IH]; simpl; [done|].
  intros [Hc Hl]%andb_prop. apply negb_true_iff in Hc. rewrite Hc.
  by rewrite (IH Hl).
Qed.

Lemma split_lines_cons (l rest : string) :
  single_line l = true →
  split_lines (l +:+ String newline rest) = l :: split_lines rest.
Proof.
  induction l as [|c l IH]; simpl.
  - done.
  - intros [Hc Hl]%andb_prop. apply negb_true_iff in Hc. rewrite Hc.
    by rewrite (IH Hl).
Qed.

Lemma split_join_lines (ls : list string) :
  ls ≠ [] → Forall (λ l, single_line l = true) ls →
  split_lines (join_lines ls) = ls.
Proof.
  induction ls as [|l ls IH]; [done|]. intros _ Hall.
  apply Forall_cons in Hall as [Hl Hls].
  destruct ls as [|l' ls].
  - simpl. by apply split_lines_single.
  - change (join_lines (l :: l' :: ls)) with (l +:+ String newline (join_lines (l' :: ls))).
    rewrite split_lines_cons by done. f_equal. by apply IH.
Qed.

Lemma drop_prefix_app (p s : string) : drop_prefix p (p +:+ s) = Some s.
Proof. induction p as [|c p IH]; simpl; [done|]. by rewrite Ascii.eqb_refl. Qed.

Lemma contains_prefix (t b : string) : contains t (t +:+ b) = true.
Proof.
  pose proof (drop_prefix_app t b) as H.
  destruct (t +:+ b); simpl; by rewrite H.
Qed.

Lemma contains_infix (a t b : string) : contains t (a +:+ t +:+ b) = true.
Proof.
  induction a as [|c a IH].
  - exact (contains_prefix t b).
  - simpl. destruct (drop_prefix t (String c (a +:+ t +:+ b))); [done|]. exact IH.
Qed.

Example strip_example :
  strip (bytes [32; 10; 97; 32; 98; 9; 226; 128; 168]%nat) = "a b".
Proof. reflexivity. Qed.

Example strip_fences_example :
  strip_fences (JStr ("```json" +:+ String newline "{}" +:+ String newline "```"))
  = Ok "{}".
Proof. reflexivity. Qed.

Example split_lines_example :
  split_lines (bytes [97; 10; 10; 98; 10]%nat) = ["a"; ""; "b"; ""].
Proof. reflexivity. Qed.

(** ** Payload encoder *)

Lemma create_jsonl_content_split `{Externals} (comments : list CommentInput) :
  comments ≠ [] →
  Forall (λ c, single_line (json_dumps (request_body model_json_schema c)) = true) comments →
  split_lines (create_jsonl_content comments)
  = map (λ c, json_dumps (request_body model_json_schema c)) comments.
Proof.
  intros Hne Hall. unfold create_jsonl_content. apply split_join_lines.
  - by destruct comments.
  - by apply Forall_map.
Qed.

(** C8. Line [i] of the request document is the [json.dumps] text of a JSON
    object built from item [i]: its [custom_id] is the item's id, its
    [request] names the fixed model, embeds the item's text in
    [contents[0].parts[0].text], and sets temperature 0.0, the mime type
    application/json and the schema of [ToxicityAnalysis]. The document has
    one line per item, provided [json.dumps] writes each object on a single
    line, as it does without an indent. *)
Theorem create_jsonl_content_lines `{Externals} (comments : list CommentInput)
    (i : nat) (c : CommentInput) :
  Forall (λ c, single_line (json_dumps (request_body model_json_schema c)) = true) comments →
  comments !! i = Some c →
  let body := request_body model_json_schema c in
  length (split_lines (create_jsonl_content comments)) = length comments
  ∧ split_lines (create_jsonl_content comments) !! i = Some (json_dumps body)
  ∧ (∃ members, body = JDict members)
  ∧ json_at [Key "custom_id"] body = Some (JStr (comment_id c))
  ∧ json_at [Key "request"; Key "model"] body = Some (JStr "models/gemini-3-flash-preview")
  ∧ (∃ prompt,
       json_at [Key "request"; Key "contents"; Index 0; Key "parts"; Index 0; Key "text"] body
       = Some (JStr prompt)
       ∧ contains (comment_text c) prompt = true)
  ∧ json_at [Key "request"; Key "generationConfig"; Key "temperature"] body
    = Some (JFloat "0.0")
  ∧ json_at [Key "request"; Key "generationConfig"; Key "response_mime_type"] body
    = Some (JStr "application/json")
  ∧ json_at [Key "request"; Key "generationConfig"; Key "response_json_schema"] body
    = Some model_json_schema.
Proof.
  intros Hall Hi body.
  assert (comments ≠ []) as Hne by (intros ->; done).
  rewrite create_jsonl_content_split by done.
  split; [by rewrite length_map|].
  split; [by rewrite list_lookup_fmap, Hi|].
  split; [by eexists|].
  repeat split; try reflexivity.
  exists (prompt_text c). split; [reflexivity|].
  exact (contains_infix ("Analyze toxicity for: " +:+ dquote) (comment_text c) _).
Qed.

Lemma create_jsonl_content_lines_witness :
  split_lines (@create_jsonl_content Sample.lib [Sample.comment_a; Sample.comment_b]) !! 1%nat
  = Some (Reference.dumps (request_body Reference.schema Sample.comment_b)).
Proof.
  refine (proj1 (proj2 (@create_jsonl_content_lines Sample.lib
            [Sample.comment_a; Sample.comment_b] 1 Sample.comment_b _ _))).
  - repeat constructor.
  - reflexivity.
Defined.

(** ** Job poller *)

Lemma logged_nil (w : world) : logged w [] = w.
Proof. destruct w. unfold logged. simpl. by rewrite app_nil_r. Qed.

Lemma logged_logged (w : world) (a b : list event) :
  logged (logged w a) b = logged w (a ++ b).
Proof. unfold logged. simpl. by rewrite app_assoc. Qed.

Lemma terminal_false (state : string) :
  terminal state = false →
  String.eqb state "JOB_STATE_SUCCEEDED" = false
  ∧ String.eqb state "JOB_STATE_FAILED" = false
  ∧ String.eqb state "JOB_STATE_CANCELLED" || String.eqb state "JOB_STATE_EXPIRED" = false.
Proof.
  unfold terminal. intros H.
  repeat (apply orb_false_elim in H as [H ?]). repeat split; try done.
  apply orb_false_intro; done.
Qed.

Lemma poll_step (r : result batch_job) (replies : list (result batch_job))
    (name : string) (w : world) :
  pending r →
  poll (r :: replies) name w = poll replies name (logged w [EvBatchGet name; EvSleep 5]).
Proof.
  intros (st & -> & Hst). apply terminal_false in Hst as (H1 & H2 & H3).
  cbn [poll]. unfold io_bind, call, emit, sleep, io_bind, io_ret. cbn.
  rewrite H1, H2, H3. unfold emit, logged. cbn. by rewrite <- app_assoc.
Qed.

Lemma poll_pending (pre rest : list (result batch_job)) (name : string) (w : world) :
  Forall pending pre →
  poll (pre ++ rest) name w
  = poll rest name (logged w (polling_trace name (length pre))).
Proof.
  intros Hpre. revert w. induction Hpre as [|r pre Hr _ IH]; intros w.
  - by rewrite logged_nil.
  - cbn [app]. rewrite poll_step by done. rewrite IH, logged_logged. done.
Qed.

(** C4. The poller decides on the first status that is terminal. After any
    run of non-terminal statuses it is still polling, each of them answered
    by a 5 second sleep; a following SUCCEEDED status returns that status's
    output file name, a FAILED status raises the job-failed error carrying
    the backend's error detail, a CANCELLED or EXPIRED status raises the
    job-stopped error naming the state, and any other status is skipped.
    Both errors are [RuntimeError]s, told apart by their message. *)
Theorem poll_first_terminal (pre post : list (result batch_job)) (s : batch_job)
    (name : string) (w : world) :
  Forall pending pre →
  let seen := polling_trace name (length pre) in
  poll pre name w = (Diverge, logged w seen)
  ∧ (job_state s = "JOB_STATE_SUCCEEDED" →
     poll (pre ++ Ok s :: post) name w
     = (Return (dest_file_name s), logged w (seen ++ [EvBatchGet name])))
  ∧ (job_state s = "JOB_STATE_FAILED" →
     poll (pre ++ Ok s :: post) name w
     = (Raise (RuntimeError ("Batch Job Failed: " +:+ job_error s)),
        logged w (seen ++ [EvBatchGet name])))
  ∧ (job_state s = "JOB_STATE_CANCELLED" ∨ job_state s = "JOB_STATE_EXPIRED" →
     poll (pre ++ Ok s :: post) name w
     = (Raise (RuntimeError ("Batch Job Stopped: " +:+ job_state s)),
        logged w (seen ++ [EvBatchGet name])))
  ∧ (terminal (job_state s) = false →
     poll (pre ++ Ok s :: post) name w
     = poll post name (logged w (seen ++ [EvBatchGet name; EvSleep 5]))).
Proof.
  intros Hpre seen.
  split.
  { rewrite <- (app_nil_r pre) at 1. by rewrite poll_pending. }
  assert (∀ o, (∀ w', poll (Ok s :: post) name w' = (o, logged w' [EvBatchGet name])) →
    poll (pre ++ Ok s :: post) name w = (o, logged w (seen ++ [EvBatchGet name]))) as Hend.
  { intros o Ho. rewrite poll_pending by done. by rewrite Ho, logged_logged. }
  repeat split.
  - intros Hs. apply Hend. intros w'. cbn. unfold io_bind, call, emit, io_bind, io_ret. cbn.
    by rewrite Hs.
  - intros Hs. apply Hend. intros w'. cbn. unfold io_bind, call, emit, io_bind, io_ret. cbn.
    by rewrite Hs.
  - intros Hs. apply Hend. intros w'. cbn. unfold io_bind, call, emit, io_bind, io_ret. cbn.
    by destruct Hs as [-> | ->].
  - intros Hs. rewrite poll_pending by done.
    rewrite poll_step by (by exists s). by rewrite logged_logged.
Qed.

Lemma poll_first_terminal_witness :
  poll [Ok Sample.running; Ok Sample.running; Ok Sample.succeeded] "batches/j1"
       Sample.empty_world
  = (Return "files/out-1",
     logged Sample.empty_world
       [EvBatchGet "batches/j1"; EvSleep 5; EvBatchGet "batches/j1"; EvSleep 5;
        EvBatchGet "batches/j1"])
  ∧ fst (poll [Ok Sample.running; Ok Sample.failed] "batches/j1" Sample.empty_world)
    = Raise (RuntimeError "Batch Job Failed: quota exceeded")
  ∧ fst (poll [Ok Sample.running; Ok Sample.cancelled] "batches/j1" Sample.empty_world)
    = Raise (RuntimeError "Batch Job Stopped: JOB_STATE_CANCELLED")
  ∧ fst (poll [Ok Sample.running; Ok Sample.running] "batches/j1" Sample.empty_world)
    = Diverge.
Proof.
  assert (Forall pending [Ok Sample.running]) as Hone
    by (repeat constructor; by eexists).
  assert (Forall pending [Ok Sample.running; Ok Sample.running]) as Htwo
    by (repeat constructor; by eexists).
  split; [|split; [|split]].
  - exact (proj1 (proj2 (poll_first_terminal [Ok Sample.running; Ok Sample.running] []
                           Sample.succeeded "batches/j1" Sample.empty_world Htwo))
             eq_refl).
  - exact (f_equal fst
             (proj1 (proj2 (proj2 (poll_first_terminal [Ok Sample.running] []
                                     Sample.failed "batches/j1" Sample.empty_world Hone)))
                eq_refl)).
  - exact (f_equal fst
             (proj1 (proj2 (proj2 (proj2 (poll_first_terminal [Ok Sample.running] []
                                            Sample.cancelled "batches/j1"
                                            Sample.empty_world Hone))))
                (or_introl eq_refl))).
  - exact (f_equal fst
             (proj1 (poll_first_terminal [Ok Sample.running; Ok Sample.running] []
                       Sample.succeeded "batches/j1" Sample.empty_world Htwo))).
Defined.

Example poll_failed :
  fst (poll [Ok Sample.running; Ok Sample.failed] "batches/j1" Sample.empty_world)
  = Raise (RuntimeError "Batch Job Failed: quota exceeded").
Proof. reflexivity. Qed.

Example poll_cancelled :
  fst (poll [Ok Sample.running; Ok Sample.cancelled] "batches/j1" Sample.empty_world)
  = Raise (RuntimeError "Batch Job Stopped: JOB_STATE_CANCELLED").
Proof. reflexivity. Qed.

(** ** The dictionary of the original texts *)

Lemma dict_set_fresh (k v : string) (d : list (string * string)) :
  k ∉ d.*1 → dict_set k v d = d ++ [(k, v)].
Proof.
  induction d as [|[k' v'] d IH]; simpl; [done|].
  intros Hk. apply not_elem_of_cons in Hk as [Hne Hk].
  destruct (String.eqb_spec k k') as [->|_]; [done|]. by rewrite IH.
Qed.

Lemma original_map_of_acc (comments : list CommentInput) (acc : list (string * string)) :
  NoDup (acc.*1 ++ map comment_id comments) →
  fold_left (λ d c, dict_set (comment_id c) (comment_text c) d) comments acc
  = acc ++ map (λ c, (comment_id c, comment_text c)) comments.
Proof.
  revert acc. induction comments as [|c comments IH]; intros acc Hnd; simpl.
  - by rewrite app_nil_r.
  - rewrite dict_set_fresh.
    + rewrite IH.
      * by rewrite <- app_assoc.
      * rewrite fmap_app. simpl. by rewrite <- app_assoc.
    + simpl in Hnd. apply NoDup_app in Hnd as (_ & Hdisj & _).
      intros Hin. apply (Hdisj _ Hin). left.
Qed.

(** With unique ids the dictionary lists the items in input order. *)
Lemma original_map_of_unique (comments : list CommentInput) :
  NoDup (map comment_id comments) →
  original_map_of comments = map (λ c, (comment_id c, comment_text c)) comments.
Proof. intros Hnd. unfold original_map_of. by rewrite original_map_of_acc. Qed.

(** ** The merge loop *)

Section Merge.
Context `{Externals}.

Lemma merge_item_inv (rm : gmap string json) (cid text : string) (r : AnalyzedComment) :
  merge_item rm cid text = Ok r →
  ac_id r = cid ∧ ac_text r = text ∧ exactly_one r.
Proof.
  unfold merge_item, rbind, exactly_one.
  destruct (truthy (default JNull (rm !! cid))).
  - destruct (has_error _) as [[|]|]; simpl; [| |done].
    + destruct (py_get _ _ _); [|done]. intros [= <-]. simpl. eauto 6.
    + destruct (model_validate _); [|done]. intros [= <-]. simpl. eauto 6.
  - intros [= <-]. simpl. eauto 6.
Qed.

Lemma merge_item_missing (rm : gmap string json) (cid text : string) :
  rm !! cid = None →
  merge_item rm cid text
  = Ok {| ac_id := cid; ac_text := text; analysis := None; error := Some NO_RESULT |}.
Proof. intros Hrm. unfold merge_item. by rewrite Hrm. Qed.

Lemma merge_results_lookup (rm : gmap string json) (items : list (string * string))
    (out : list AnalyzedComment) :
  merge_results rm items = Ok out →
  length out = length items
  ∧ ∀ i cid text, items !! i = Some (cid, text) →
      ∃ r, out !! i = Some r ∧ merge_item rm cid text = Ok r.
Proof.
  revert out. induction items as [|[cid text] items IH]; intros out; simpl.
  - intros [= <-]. split; [done|]. intros i ?? Hi. by rewrite lookup_nil in Hi.
  - unfold rbind at 1. destruct (merge_item rm cid text) as [r|] eqn:Hr; [|done].
    unfold rbind at 1. destruct (merge_results rm items) as [rs|]; [|done].
    intros [= <-]. destruct (IH rs eq_refl) as [Hlen Hlook]. split; [simpl; lia|].
    intros [|i] cid' text' Hi; simpl in *.
    + injection Hi as <- <-. eauto.
    + eauto.
Qed.

Lemma merge_results_inv (rm : gmap string json) (items : list (string * string))
    (out : list AnalyzedComment) :
  merge_results rm items = Ok out →
  map ac_id out = items.*1 ∧ map ac_text out = items.*2 ∧ Forall exactly_one out.
Proof.
  revert out. induction items as [|[cid text] items IH]; intros out; simpl.
  - by intros [= <-].
  - unfold rbind at 1. destruct (merge_item rm cid text) as [r|] eqn:Hr; [|done].
    unfold rbind at 1. destruct (merge_results rm items) as [rs|]; [|done].
    intros [= <-]. destruct (IH rs eq_refl) as (Hid & Htext & Hone).
    apply merge_item_inv in Hr as (<- & <- & Hr). simpl.
    rewrite Hid, Htext. by repeat split; [..|constructor].
Qed.

End Merge.

(** ** The line loop *)

Section Scan.
Context `{Externals}.

Lemma touches_current_ret {A} (a : A) : touches_current (scan_ret a).
Proof. by intros σ r σ' [= <- <-]. Qed.

Lemma touches_current_lift {A} (r : result A) : touches_current (lift r).
Proof. by intros σ r' σ' [= <- <-]. Qed.

Lemma touches_current_bind {A B} (m : scan A) (k : A → scan B) :
  touches_current m → (∀ a, touches_current (k a)) → touches_current (scan_bind m k).
Proof.
  intros Hm Hk σ r σ'. unfold scan_bind.
  destruct (m σ) as [[a|e] σ1] eqn:Hrun.
  - intros Hrun'. destruct (Hm _ _ _ Hrun) as [Hc Hr].
    destruct (Hk a _ _ _ Hrun') as [Hc' Hr']. split; [congruence|].
    intros k' Hk'. rewrite Hr' by congruence. by apply Hr.
  - intros [= <- <-]. exact (Hm _ _ _ Hrun).
Qed.

Lemma touches_current_setitem (v : json) :
  touches_current (k <~ read_custom_id ;; setitem k v)%py.
Proof.
  intros σ r σ'. unfold scan_bind, read_custom_id, setitem.
  destruct (custom_id σ) as [[| | | |s| |]|] eqn:Hc; intros [= <- <-]; simpl; try done.
  split; [done|]. intros k Hk. rewrite lookup_insert_ne; [done|congruence].
Qed.

Lemma touches_current_store (v : json) : touches_current (store v).
Proof. apply touches_current_setitem. Qed.

Lemma touches_current_extract_result (item : json) :
  touches_current (extract_result item).
Proof.
  unfold extract_result.
  repeat first
    [ apply touches_current_store
    | apply touches_current_bind; [apply touches_current_lift | intros ?]
    | match goal with |- touches_current (if ?b then _ else _) => destruct b end ].
Qed.

Lemma touches_current_except_clause (e : exn) : touches_current (except_clause e).
Proof.
  intros σ r σ'. unfold except_clause, scan_bind, read_custom_id.
  destruct (custom_id σ) as [cid|] eqn:Hc; [|by intros [= <- <-]].
  destruct (truthy cid); [|by intros [= <- <-]].
  unfold setitem. destruct cid; intros [= <- <-]; simpl; try done.
  split; [done|]. intros k Hk. rewrite lookup_insert_ne; [done|congruence].
Qed.

(** What one line can change: the variable [custom_id], which becomes the id
    the line carries if the line decodes to an object, and the entry of
    [results_map] under the id [custom_id] holds afterwards. *)
Lemma scan_line_inv (line : string) (σ σ' : scan_state) (r : result unit) :
  scan_line line σ = (r, σ') →
  (custom_id σ' = custom_id σ
   ∨ ∃ d, json_loads line = Ok (JDict d)
          ∧ custom_id σ' = Some (default JNull (assoc_get "custom_id" d)))
  ∧ ∀ k, custom_id σ' ≠ Some (JStr k) → results_map σ' !! k = results_map σ !! k.
Proof.
  unfold scan_line. destruct (String.eqb line ""); [by intros [= <- <-]; auto|].
  unfold try_except.
  destruct (try_body line σ) as [r1 σ1] eqn:Hbody.
  assert ((custom_id σ1 = custom_id σ
           ∨ ∃ d, json_loads line = Ok (JDict d)
                  ∧ custom_id σ1 = Some (default JNull (assoc_get "custom_id" d)))
          ∧ ∀ k, custom_id σ1 ≠ Some (JStr k) → results_map σ1 !! k = results_map σ !! k)
    as [Hid Hmap].
  { revert Hbody. unfold try_body, scan_bind at 1, lift at 1.
    destruct (json_loads line) as [item|e]; [|by intros [= <- <-]; auto].
    unfold scan_bind at 1, lift at 1.
    destruct item as [| | | | | |d]; simpl; try (by intros [= <- <-]; auto).
    unfold scan_bind at 1, assign_custom_id.
    intros Hrest. apply touches_current_extract_result in Hrest as [Hc Hr].
    simpl in *. split; [right; eauto|].
    intros k Hk. apply Hr. congruence. }
  destruct r1 as [[]|e].
  - intros [= <- <-]. auto.
  - intros Hexc. apply touches_current_except_clause in Hexc as [Hc Hr].
    split.
    + rewrite Hc. exact Hid.
    + intros k Hk. rewrite Hr by congruence. apply Hmap. congruence.
Qed.

Lemma ids_within_mono (seen seen' : list string) (σ : scan_state) :
  seen ⊆ seen' → ids_within seen σ → ids_within seen' σ.
Proof. intros Hsub [H1 H2]. split; intros k Hk; apply Hsub; auto. Qed.

Lemma line_id_of_object (line : string) (d : list (string * json)) (k : string) :
  json_loads line = Ok (JDict d) →
  default JNull (assoc_get "custom_id" d) = JStr k →
  line_id line = Some k.
Proof.
  intros Hload Hk. unfold line_id. rewrite Hload.
  destruct (assoc_get "custom_id" d) as [v|]; simpl in Hk; [|done]. by subst v.
Qed.

Lemma scan_line_ids (seen : list string) (line : string) (σ σ' : scan_state)
    (r : result unit) :
  ids_within seen σ → scan_line line σ = (r, σ') →
  ids_within (seen ++ option_list (line_id line)) σ'.
Proof.
  intros [Hkeys Hcur] Hrun. apply scan_line_inv in Hrun as [Hid Hmap].
  assert (∀ k, custom_id σ' = Some (JStr k) → k ∈ seen ++ option_list (line_id line))
    as Hcur'.
  { intros k Hk. apply elem_of_app. destruct Hid as [Hid | (d & Hload & Hid)].
    - left. apply Hcur. congruence.
    - right. rewrite (line_id_of_object line d k); [left|done|congruence]. }
  split; [|done].
  intros k Hk.
  destruct (custom_id σ') as [[| | | |s| |]|] eqn:Hc;
    try (apply elem_of_app; left; apply Hkeys; rewrite <- Hmap; done).
  destruct (decide (s = k)) as [->|Hne]; [by apply Hcur'|].
  apply elem_of_app; left; apply Hkeys; rewrite <- Hmap; [done|congruence].
Qed.

Lemma for_each_ids (lines : list string) (seen : list string) (σ σ' : scan_state)
    (r : result unit) :
  ids_within seen σ → for_each lines scan_line σ = (r, σ') →
  ids_within (seen ++ omap line_id lines) σ'.
Proof.
  revert seen σ. induction lines as [|line lines IH]; intros seen σ Hin; simpl.
  - intros [= <- <-]. by rewrite app_nil_r.
  - unfold scan_bind. destruct (scan_line line σ) as [[[]|e] σ1] eqn:Hline.
    + intros Hrest. apply (scan_line_ids seen) in Hline; [|done].
      apply (IH (seen ++ option_list (line_id line))) in Hrest; [|done].
      eapply ids_within_mono; [|done].
      rewrite <- app_assoc. by destruct (line_id line).
    + intros [= <- <-]. apply (scan_line_ids seen) in Hline; [|done].
      eapply ids_within_mono; [|done].
      intros k [Hk|Hk]%elem_of_app; apply elem_of_app; [by left|right].
      destruct (line_id line) as [k'|]; simpl in *; [|by apply elem_of_nil in Hk].
      apply list_elem_of_singleton in Hk as ->. left.
Qed.

(** Every key of the dictionary the loop leaves is the id of some line. *)
Lemma scan_lines_keys (text_content : string) (rm : gmap string json) (k : string) :
  scan_lines text_content = Ok rm → is_Some (rm !! k) → k ∈ attributed_ids text_content.
Proof.
  unfold scan_lines, attributed_ids.
  destruct (for_each _ _ _) as [[[]|e] σ] eqn:Hrun; [|done].
  intros [= <-] Hk.
  apply (for_each_ids _ []) in Hrun as [Hkeys _]; [by apply Hkeys|].
  split; simpl; [|done].
  intros k' Hk'. rewrite lookup_empty in Hk'. by destruct Hk'.
Qed.

(** An attributable line raises nothing: what fails inside the [try] is
    recorded under the id the line carries. *)
Lemma scan_line_attributable (line : string) (σ : scan_state) :
  attributable line → ∃ σ', scan_line line σ = (Ok tt, σ').
Proof.
  intros [-> | [k Hk]]; [by eexists|].
  unfold scan_line. destruct (String.eqb line ""); [by eexists|].
  unfold line_id in Hk.
  destruct (json_loads line) as [[| | | | | |d]|] eqn:Hload; try done.
  destruct (assoc_get "custom_id" d) as [[| | | |s| |]|] eqn:Hd; try done.
  injection Hk as ->.
  unfold try_except, try_body, scan_bind at 1, lift at 1. rewrite Hload.
  unfold scan_bind at 1, lift at 1. simpl. rewrite Hd. simpl.
  unfold scan_bind at 1, assign_custom_id.
  destruct (extract_result _ _) as [[[]|e] σ1] eqn:Hrest; [by eexists|].
  apply touches_current_extract_result in Hrest as [Hc _]. simpl in Hc.
  unfold except_clause, scan_bind, read_custom_id. rewrite Hc.
  destruct (truthy (JStr k)); by eexists.
Qed.

Lemma for_each_attributable (lines : list string) (σ : scan_state) :
  Forall attributable lines → ∃ σ', for_each lines scan_line σ = (Ok tt, σ').
Proof.
  intros Hall. revert σ. induction Hall as [|line lines Hline _ IH]; intros σ; simpl.
  - by eexists.
  - unfold scan_bind. destruct (scan_line_attributable line σ Hline) as [σ1 ->].
    apply IH.
Qed.

Lemma scan_lines_total (text_content : string) :
  Forall attributable (split_lines (strip text_content)) →
  ∃ rm, scan_lines text_content = Ok rm.
Proof.
  intros Hall. unfold scan_lines.
  destruct (for_each_attributable _ {| results_map := ∅; custom_id := None |} Hall)
    as [σ' ->].
  by eexists.
Qed.

End Scan.

(** ** The reconciler *)

Lemma filter_absent (l : list string) (x : string) :
  x ∉ l → filter (λ y, y = x) l = [].
Proof.
  induction l as [|y l IH]; [done|]. intros [Hne Hx]%not_elem_of_cons.
  rewrite filter_cons_False by congruence. by apply IH.
Qed.

Lemma filter_unique_length (l : list string) (x : string) :
  NoDup l → x ∈ l → length (filter (λ y, y = x) l) = 1%nat.
Proof.
  induction 1 as [|y l Hy Hnd IH]; [by intros ?%elem_of_nil|].
  intros Hx. rewrite filter_cons. destruct (decide (y = x)) as [->|Hne].
  - simpl. by rewrite filter_absent.
  - apply elem_of_cons in Hx as [->|Hx]; [done|]. by apply IH.
Qed.

Lemma filter_ac_id (out : list AnalyzedComment) (x : string) :
  length (filter (λ r, ac_id r = x) out) = length (filter (λ y, y = x) (map ac_id out)).
Proof.
  induction out as [|r out IH]; [done|].
  rewrite map_cons, !filter_cons. destruct (decide (ac_id r = x)); simpl; by rewrite IH.
Qed.

Section Reconcile.
Context `{Externals}.

Lemma merge_results_total (rm : gmap string json) (items : list (string * string)) :
  (∀ cid, cid ∈ items.*1 → accepted (rm !! cid)) →
  ∃ out, merge_results rm items = Ok out.
Proof.
  induction items as [|[cid text] items IH]; intros Hacc; simpl; [by eexists|].
  destruct IH as [rs ->]; [intros c Hc; apply Hacc; by right|].
  assert (∃ r, merge_item rm cid text = Ok r) as [r ->]; [|by eexists].
  specialize (Hacc cid (list_elem_of_here _ _)). unfold accepted in Hacc.
  unfold merge_item. destruct Hacc as [-> | (d & -> & Hd)]; [by eexists|].
  destruct (truthy (JDict d)); [|by eexists].
  unfold has_error, rbind, py_get. case_bool_decide as Herr; cbn [negb].
  - by eexists.
  - destruct Hd as [Hd | [v ->]]; [done|by eexists].
Qed.

Lemma reconcile_inv (text_content : string) (items : list (string * string))
    (out : list AnalyzedComment) :
  reconcile text_content items = Ok out →
  ∃ rm, scan_lines text_content = Ok rm ∧ merge_results rm items = Ok out.
Proof.
  unfold reconcile, rbind. destruct (scan_lines text_content) as [rm|]; [|done]. eauto.
Qed.

End Reconcile.

(** C1, as the code has it. For an input list with unique ids, whenever the
    reconciler returns a list, that list is as long as the input and holds
    each input id exactly once, whatever the output document. The reconciler
    does return when every line of the document is empty or decodes to an
    object with a string [custom_id], and the outcome stored for each input
    id is one the merge accepts; a payload that fails validation makes the
    whole reconciliation raise instead. *)
Theorem reconcile_complete `{Externals} (comments : list CommentInput)
    (text_content : string) :
  NoDup (map comment_id comments) →
  (∀ out, reconcile text_content (original_map_of comments) = Ok out →
     length out = length comments
     ∧ map ac_id out = map comment_id comments
     ∧ ∀ c, c ∈ comments → length (filter (λ r, ac_id r = comment_id c) out) = 1%nat)
  ∧ (Forall attributable (split_lines (strip text_content)) →
     ∃ rm, scan_lines text_content = Ok rm
       ∧ ((∀ c, c ∈ comments → accepted (rm !! comment_id c)) →
          ∃ out, reconcile text_content (original_map_of comments) = Ok out)).
Proof.
  intros Hnd. rewrite original_map_of_unique by done. split.
  - intros out (rm & _ & Hmerge)%reconcile_inv.
    apply merge_results_inv in Hmerge as (Hid & _ & _).
    rewrite <- list_fmap_compose in Hid. simpl in Hid.
    assert (map ac_id out = map comment_id comments) as Hids by done.
    split; [|split; [done|]].
    + by rewrite <- (length_map ac_id), Hids, length_map.
    + intros c Hc. rewrite filter_ac_id, Hids.
      apply filter_unique_length; [done|]. by apply list_elem_of_fmap_2.
  - intros Hall. destruct (scan_lines_total text_content Hall) as [rm Hrm].
    exists rm. split; [done|]. intros Hacc.
    unfold reconcile. rewrite Hrm. simpl. apply merge_results_total.
    intros cid Hcid. rewrite <- list_fmap_compose in Hcid.
    apply list_elem_of_fmap in Hcid as (c & -> & Hc). by apply Hacc.
Qed.

Lemma reconcile_complete_witness :
  length [ {| ac_id := "a"; ac_text := "You are useless";
              analysis := Some Sample.validated_a; error := None |};
           {| ac_id := "b"; ac_text := "Nice weather today";
              analysis := None; error := Some NO_RESULT |} ]
  = length [Sample.comment_a; Sample.comment_b]
  ∧ ∃ out, @reconcile Sample.lib Sample.line_a
             (original_map_of [Sample.comment_a; Sample.comment_b]) = Ok out.
Proof.
  destruct (@reconcile_complete Sample.lib [Sample.comment_a; Sample.comment_b]
              Sample.line_a) as [Hreturned Hreturns].
  { by apply (bool_decide_unpack _). }
  split.
  - refine (proj1 (Hreturned _ _)). vm_compute. reflexivity.
  - destruct Hreturns as (rm & Hrm & Hout).
    { constructor; [right; vm_compute; eauto|constructor]. }
    apply Hout. vm_compute in Hrm. injection Hrm as <-.
    intros c [->|[->|[]%elem_of_nil]%elem_of_cons]%elem_of_cons.
    + right. eexists. split; [vm_compute; reflexivity|].
      right. eexists. vm_compute. reflexivity.
    + left. vm_compute. reflexivity.
Defined.

(** The claim C1 fails as stated: the answer for "a" is a JSON object without
    the required fields, pydantic rejects it when the merge loop builds the
    [AnalyzedComment], and the reconciler returns no list at all. *)
Lemma reconcile_incomplete_on_invalid_payload :
  NoDup (map comment_id [Sample.comment_a; Sample.comment_b])
  ∧ (∃ msg, @reconcile Sample.lib Sample.line_a_partial
               (original_map_of [Sample.comment_a; Sample.comment_b])
             = Err (ValidationError msg))
  ∧ ¬ ∃ out, @reconcile Sample.lib Sample.line_a_partial
               (original_map_of [Sample.comment_a; Sample.comment_b]) = Ok out
             ∧ length out = length [Sample.comment_a; Sample.comment_b].
Proof.
  assert (@reconcile Sample.lib Sample.line_a_partial
            (original_map_of [Sample.comment_a; Sample.comment_b])
          = Err (ValidationError "validation error for AnalyzedComment")) as Hrun
    by (vm_compute; reflexivity).
  split; [by apply (bool_decide_unpack _)|]. split; [eexists; exact Hrun|].
  intros (out & Hout & _). rewrite Hrun in Hout. discriminate Hout.
Qed.

(** C2, on the code. The [except] clause files the failure of a line under
    whatever [custom_id] holds. For a line that is no JSON text that is the
    id of the line before it: the analysis of "a" is replaced by the
    decoding error of the next line, although without that line "a" keeps
    its analysis. When the garbled line comes first, [custom_id] is unbound
    and the [UnboundLocalError] escapes the reconciler. *)
Theorem garbled_line_corrupts_previous_id :
  let items := original_map_of [Sample.comment_a; Sample.comment_b] in
  @reconcile Sample.lib Sample.line_a items
  = Ok [ {| ac_id := "a"; ac_text := "You are useless";
            analysis := Some Sample.validated_a; error := None |};
         {| ac_id := "b"; ac_text := "Nice weather today";
            analysis := None; error := Some NO_RESULT |} ]
  ∧ @reconcile Sample.lib (join_lines [Sample.line_a; Sample.garbled]) items
    = Ok [ {| ac_id := "a"; ac_text := "You are useless"; analysis := None;
              error := Some "Expecting value: line 1 column 1 (char 0)" |};
           {| ac_id := "b"; ac_text := "Nice weather today";
              analysis := None; error := Some NO_RESULT |} ]
  ∧ @reconcile Sample.lib (join_lines [Sample.garbled; Sample.line_a]) items
    = Err (UnboundLocalError
             "cannot access local variable 'custom_id' where it is not associated with a value").
Proof. repeat split; vm_compute; reflexivity. Qed.

(** C5. With unique ids, the i-th record of the reconciled list carries the
    id and the text of the i-th input item, whatever the order of the lines
    of the output document. *)
Theorem reconcile_keeps_input_order `{Externals} (comments : list CommentInput)
    (text_content : string) (out : list AnalyzedComment) (i : nat) (c : CommentInput) :
  NoDup (map comment_id comments) →
  reconcile text_content (original_map_of comments) = Ok out →
  comments !! i = Some c →
  ∃ r, out !! i = Some r ∧ ac_id r = comment_id c ∧ ac_text r = comment_text c.
Proof.
  intros Hnd (rm & _ & Hmerge)%reconcile_inv Hi.
  rewrite original_map_of_unique in Hmerge by done.
  apply merge_results_lookup in Hmerge as [_ Hlook].
  destruct (Hlook i (comment_id c) (comment_text c)) as (r & Hr & Hitem).
  { by rewrite list_lookup_fmap, Hi. }
  apply merge_item_inv in Hitem as (? & ? & _). eauto.
Qed.

Lemma reconcile_keeps_input_order_witness :
  ∃ r, [ {| ac_id := "a"; ac_text := "You are useless";
            analysis := Some Sample.validated_a; error := None |};
         {| ac_id := "b"; ac_text := "Nice weather today";
            analysis := Some Sample.validated_b; error := None |} ] !! 1%nat = Some r
       ∧ ac_id r = "b" ∧ ac_text r = "Nice weather today".
Proof.
  refine (@reconcile_keeps_input_order Sample.lib [Sample.comment_a; Sample.comment_b]
            (join_lines [Sample.line_b; Sample.line_a]) _ 1 Sample.comment_b _ _ _).
  - by apply (bool_decide_unpack _).
  - vm_compute. reflexivity.
  - reflexivity.
Defined.

(** C6, as the code has it. An input id that no line of the output document
    carries gets a record with no analysis and the fixed error text
    "No result found (Job failed or ID mismatch)". *)
Theorem missing_id_gets_sentinel `{Externals} (text_content : string)
    (items : list (string * string)) (out : list AnalyzedComment)
    (i : nat) (cid text : string) :
  reconcile text_content items = Ok out →
  items !! i = Some (cid, text) →
  cid ∉ attributed_ids text_content →
  out !! i = Some {| ac_id := cid; ac_text := text; analysis := None;
                     error := Some "No result found (Job failed or ID mismatch)" |}.
Proof.
  intros (rm & Hscan & Hmerge)%reconcile_inv Hi Hcid.
  apply merge_results_lookup in Hmerge as [_ Hlook].
  destruct (Hlook i cid text Hi) as (r & Hr & Hitem).
  rewrite merge_item_missing in Hitem.
  - injection Hitem as <-. exact Hr.
  - apply eq_None_not_Some. intros Hsome. apply Hcid.
    by apply (scan_lines_keys text_content rm).
Qed.

Lemma missing_id_gets_sentinel_witness :
  [ {| ac_id := "a"; ac_text := "You are useless";
       analysis := Some Sample.validated_a; error := None |};
    {| ac_id := "b"; ac_text := "Nice weather today";
       analysis := None; error := Some NO_RESULT |} ] !! 1%nat
  = Some {| ac_id := "b"; ac_text := "Nice weather today"; analysis := None;
            error := Some "No result found (Job failed or ID mismatch)" |}.
Proof.
  refine (@missing_id_gets_sentinel Sample.lib Sample.line_a
            (original_map_of [Sample.comment_a; Sample.comment_b]) _ 1 "b"
            "Nice weather today" _ _ _).
  - vm_compute. reflexivity.
  - reflexivity.
  - apply (bool_decide_unpack _). vm_compute. exact I.
Defined.

(** The claim C6 fails as stated, on the end-to-end example of the
    specification: "b" has no line, and its error is not the text
    "no result returned". *)
Lemma missing_id_error_is_not_no_result_returned :
  ∃ out r,
    @reconcile Sample.lib Sample.line_a
      (original_map_of [Sample.comment_a; Sample.comment_b]) = Ok out
    ∧ ("b" ∉ @attributed_ids Sample.lib Sample.line_a)
    ∧ out !! 1%nat = Some r
    ∧ ac_id r = "b"
    ∧ error r ≠ Some "no result returned".
Proof.
  eexists _, _. split; [vm_compute; reflexivity|].
  split; [apply (bool_decide_unpack _); vm_compute; exact I|].
  split; [reflexivity|]. split; [reflexivity|]. discriminate.
Qed.

(** ** The effects of the pipeline *)

Lemma not_elem_of_removed (path : string) (X : gset string) : path ∉ X ∖ {[path]}.
Proof. rewrite elem_of_difference, elem_of_singleton. intros [_ Hne]. by apply Hne. Qed.

Lemma removed_after_added (path : string) (X : gset string) :
  ({[path]} ∪ X) ∖ {[path]} = X ∖ {[path]}.
Proof.
  apply set_eq. intros x.
  rewrite !elem_of_difference, elem_of_union, elem_of_singleton. split.
  - intros [[Hx|Hx] Hne]; [by destruct Hne|done].
  - intros [Hx Hne]. split; [by right|done].
Qed.

Lemma appends_ret {A} (a : A) : appends (io_ret a).
Proof. intros w r w' [= <- <-]. exists []. by rewrite logged_nil. Qed.

Lemma appends_raise {A} (e : exn) : appends (@io_raise A e).
Proof. intros w r w' [= <- <-]. exists []. by rewrite logged_nil. Qed.

Lemma appends_diverge {A} : appends (@io_diverge A).
Proof. intros w r w' [= <- <-]. exists []. by rewrite logged_nil. Qed.

Lemma appends_of_result {A} (r : result A) : appends (of_result r).
Proof. destruct r; [apply appends_ret | apply appends_raise]. Qed.

Lemma appends_emit (ev : event) : appends (emit ev).
Proof. intros w r w' [= <- <-]. by exists [ev]. Qed.

Lemma appends_bind {A B} (m : io A) (k : A → io B) :
  appends m → (∀ a, appends (k a)) → appends (io_bind m k).
Proof.
  intros Hm Hk w r w'. unfold io_bind.
  destruct (m w) as [[a|e|] w1] eqn:Hrun; destruct (Hm _ _ _ Hrun) as [evs ->].
  - intros [evs' ->]%Hk. rewrite logged_logged. eauto.
  - intros [= <- <-]. eauto.
  - intros [= <- <-]. eauto.
Qed.

Lemma appends_call {A} (ev : event) (r : result A) : appends (call ev r).
Proof.
  apply appends_bind; [apply appends_emit|]. intros _. apply (appends_of_result r).
Qed.

Lemma appends_wait_for_file (replies : list (result file_obj)) (f : file_obj) :
  appends (wait_for_file replies f).
Proof.
  revert f. induction replies as [|r replies IH]; intros f; simpl;
    destruct (String.eqb _ _); try apply appends_ret; [apply appends_diverge|].
  apply appends_bind; [apply appends_emit|]. intros _.
  apply appends_bind; [apply appends_call|]. apply IH.
Qed.

Lemma appends_poll (replies : list (result batch_job)) (name : string) :
  appends (poll replies name).
Proof.
  induction replies as [|r replies IH]; simpl; [apply appends_diverge|].
  apply appends_bind; [apply appends_call|]. intros st.
  repeat (destruct (_ : bool); [first [apply appends_ret | apply appends_raise]|]).
  apply appends_bind; [apply appends_emit|]. intros _. apply IH.
Qed.

(** A computation that opens with a logged call leaves a trace that opens
    with that call. *)
Lemma call_bind_starts {A B} (ev : event) (r : result A) (k : A → io B)
    (w w' : world) (o : outcome B) :
  (∀ a, appends (k a)) →
  io_bind (call ev r) k w = (o, w') → ∃ evs, w' = logged w (ev :: evs).
Proof.
  intros Hk. unfold io_bind at 1, call, io_bind at 1, emit.
  destruct r as [a|e]; simpl.
  - intros [evs ->]%Hk. exists evs. unfold logged. simpl. by rewrite <- app_assoc.
  - intros [= <- <-]. by exists [].
Qed.

Section Effects.
Context `{Externals}.

Lemma appends_parse_results (B : backend) (name : string)
    (original_map : list (string * string)) :
  appends (parse_results B name original_map).
Proof.
  apply appends_bind; [apply appends_call|]. intros ?.
  apply appends_bind; [apply appends_of_result|]. intros ?. apply appends_of_result.
Qed.

Lemma pipeline_starts_with_upload (B : backend) (path : string)
    (original_map : list (string * string)) (w w' : world) (o : outcome BatchResponse) :
  pipeline B path original_map w = (o, w') → ∃ evs, w' = logged w (EvUpload path :: evs).
Proof.
  unfold pipeline, run_google_batch_process, io_bind at 1.
  destruct (io_bind (call _ _) _ w) as [r1 w1] eqn:Hrun.
  apply call_bind_starts in Hrun as [evs ->].
  2:{ intros f. apply appends_bind; [apply appends_wait_for_file|]. intros ?.
      apply appends_bind; [apply appends_call|]. intros ?. apply appends_poll. }
  destruct r1 as [name| |]; [|intros [= <- <-]; eauto..].
  intros Hrest.
  assert (appends (results <== parse_results B name original_map ;;
                   io_ret {| results := results; total_processed := length results;
                             status := "completed" |})%py) as Happ.
  { apply appends_bind; [apply appends_parse_results|]. intros ?. apply appends_ret. }
  apply Happ in Hrest as [evs' ->]. rewrite logged_logged. simpl. eauto.
Qed.

(** The run of the endpoint on a non-empty list whose document could be
    written: the pipeline runs on the staged world, its exception is turned
    into an HTTP 500, and the temporary file is removed unless the pipeline
    is still waiting. *)
Lemma analyze_batch_endpoint_run (B : backend) (request : BatchRequest) (w : world) :
  comments request ≠ [] → write_error B = None →
  ∃ o evs,
    let w2 := logged (staged B request w) (EvUpload (temp_name B) :: evs) in
    pipeline B (temp_name B) (original_map_of (comments request)) (staged B request w)
    = (o, w2)
    ∧ analyze_batch_endpoint B request w
      = match o with
        | Return resp => (Return resp, cleaned (temp_name B) w2)
        | Raise e => (Raise (HTTPException 500 (exn_str e)), cleaned (temp_name B) w2)
        | Diverge => (Diverge, w2)
        end.
Proof.
  intros Hne Hwrite. unfold analyze_batch_endpoint.
  destruct (comments request) as [|c cs] eqn:Hcs; [done|]. cbv beta iota. rewrite <- Hcs.
  unfold io_bind at 1, named_temporary_file.
  unfold io_bind at 1, temp_write, call, io_bind at 1, emit. rewrite Hwrite. simpl.
  match goal with |- context [io_finally _ _ ?w1] =>
    assert (w1 = staged B request w) as ->
      by (unfold staged; simpl; by rewrite <- app_assoc)
  end.
  destruct (pipeline B (temp_name B) (original_map_of (comments request))
              (staged B request w)) as [o w2] eqn:Hrun.
  destruct (pipeline_starts_with_upload _ _ _ _ _ _ Hrun) as [evs ->].
  exists o, evs. split; [done|].
  unfold io_finally, io_except. rewrite Hrun.
  assert (cleanup (temp_name B)
            (logged (staged B request w) (EvUpload (temp_name B) :: evs))
          = (Return tt,
             cleaned (temp_name B)
               (logged (staged B request w) (EvUpload (temp_name B) :: evs)))) as Hclean.
  { unfold cleanup, io_bind, path_exists. rewrite bool_decide_eq_true_2; [done|].
    simpl. apply elem_of_union_l, elem_of_singleton. done. }
  destruct o as [resp|e|]; [| |done].
  - by rewrite Hclean.
  - unfold io_raise. by rewrite Hclean.
Qed.

End Effects.

(** ** The endpoint *)

Section Endpoint.
Context `{Externals}.

Lemma analyze_batch_endpoint_empty (B : backend) (request : BatchRequest) (w : world) :
  comments request = [] →
  analyze_batch_endpoint B request w
  = (Raise (HTTPException 400 "Lista komentarzy jest pusta."), w).
Proof. intros Hempty. unfold analyze_batch_endpoint. by rewrite Hempty. Qed.

Lemma analyze_batch_endpoint_of_pipeline (B : backend) (request : BatchRequest)
    (w w2 : world) (o : outcome BatchResponse) :
  comments request ≠ [] → write_error B = None →
  pipeline B (temp_name B) (original_map_of (comments request)) (staged B request w)
  = (o, w2) →
  analyze_batch_endpoint B request w
  = match o with
    | Return resp => (Return resp, cleaned (temp_name B) w2)
    | Raise e => (Raise (HTTPException 500 (exn_str e)), cleaned (temp_name B) w2)
    | Diverge => (Diverge, w2)
    end
  ∧ files w2 = {[temp_name B]} ∪ files w.
Proof.
  intros Hne Hwrite Hrun.
  destruct (analyze_batch_endpoint_run B request w Hne Hwrite) as (o' & evs & Hrun' & Hend).
  simpl in Hrun'. rewrite Hrun in Hrun'. injection Hrun' as <- ->. done.
Qed.

Lemma pipeline_return_inv (B : backend) (path : string)
    (original_map : list (string * string)) (w w' : world) (resp : BatchResponse) :
  pipeline B path original_map w = (Return resp, w') →
  ∃ text_content,
    reconcile text_content original_map = Ok (results resp)
    ∧ total_processed resp = length (results resp)
    ∧ status resp = "completed".
Proof.
  unfold pipeline, io_bind at 1.
  destruct (run_google_batch_process B path w) as [[name| |] w1]; [|done..].
  unfold io_bind at 1, parse_results, io_bind at 1.
  destruct (call _ _ w1) as [[file_content| |] w2]; [|done..].
  unfold io_bind at 1, of_result.
  destruct (bytes_decode file_content) as [text_content|]; [|done]. simpl.
  destruct (reconcile text_content original_map) as [out|] eqn:Hout; [|done]. simpl.
  intros [= <- <-]. eauto.
Qed.

Lemma analyze_batch_endpoint_return_inv (B : backend) (request : BatchRequest)
    (w w' : world) (resp : BatchResponse) :
  analyze_batch_endpoint B request w = (Return resp, w') →
  ∃ text_content,
    reconcile text_content (original_map_of (comments request)) = Ok (results resp)
    ∧ total_processed resp = length (results resp).
Proof.
  intros Hrun.
  destruct (decide (comments request = [])) as [Hempty|Hne].
  { by rewrite analyze_batch_endpoint_empty in Hrun. }
  destruct (write_error B) as [e|] eqn:Hwrite.
  { revert Hrun. unfold analyze_batch_endpoint.
    destruct (comments request); [done|].
    unfold io_bind at 1, named_temporary_file.
    unfold io_bind at 1, temp_write, call, io_bind at 1, emit. by rewrite Hwrite. }
  destruct (analyze_batch_endpoint_run B request w Hne Hwrite) as (o & evs & Hpipe & Hend).
  rewrite Hend in Hrun. destruct o as [resp'| |]; [|done..].
  injection Hrun as -> _.
  apply pipeline_return_inv in Hpipe as (text_content & ? & ? & _). eauto.
Qed.

End Endpoint.

(** C7. Every record the endpoint returns has exactly one of [analysis] and
    [error] populated. *)
Theorem returned_records_have_exactly_one `{Externals} (B : backend)
    (request : BatchRequest) (w w' : world) (resp : BatchResponse) :
  analyze_batch_endpoint B request w = (Return resp, w') →
  Forall exactly_one (results resp).
Proof.
  intros (text_content & Hrec & _)%analyze_batch_endpoint_return_inv.
  apply reconcile_inv in Hrec as (rm & _ & Hmerge).
  by apply merge_results_inv in Hmerge as (_ & _ & Hone).
Qed.

Lemma returned_records_have_exactly_one_witness :
  Forall exactly_one
    [ {| ac_id := "a"; ac_text := "You are useless";
         analysis := Some Sample.validated_a; error := None |};
      {| ac_id := "b"; ac_text := "Nice weather today";
         analysis := None; error := Some NO_RESULT |} ].
Proof.
  refine (@returned_records_have_exactly_one Sample.lib (Sample.serving Sample.line_a)
            {| comments := [Sample.comment_a; Sample.comment_b] |} Sample.empty_world
            (snd (@analyze_batch_endpoint Sample.lib (Sample.serving Sample.line_a)
                    {| comments := [Sample.comment_a; Sample.comment_b] |}
                    Sample.empty_world))
            {| results := _; total_processed := 2; status := "completed" |} _).
  vm_compute. reflexivity.
Defined.

(** C9. On a run that staged its request file, every exit of the endpoint,
    with a response or with the HTTP 500 that stands for a failed
    submission, poll, fetch or reconciliation, leaves the temporary file
    removed: it is not among the local files, which are otherwise those
    from before the run, and the removal is the last call made. *)
Theorem temp_file_removed_on_exit `{Externals} (B : backend) (request : BatchRequest)
    (w w' : world) (o : outcome BatchResponse) :
  comments request ≠ [] → write_error B = None →
  analyze_batch_endpoint B request w = (o, w') →
  o ≠ Diverge →
  ((∃ resp, o = Return resp) ∨ (∃ detail, o = Raise (HTTPException 500 detail)))
  ∧ (temp_name B ∉ files w')
  ∧ files w' = files w ∖ {[temp_name B]}
  ∧ last (trace w') = Some (EvRemove (temp_name B)).
Proof.
  intros Hne Hwrite Hrun Hexit.
  destruct (analyze_batch_endpoint_run B request w Hne Hwrite) as (o' & evs & Hpipe & Hend).
  rewrite Hend in Hrun.
  destruct o' as [resp|e|]; injection Hrun as <- <-; [| |done].
  - split; [eauto|]. simpl. rewrite removed_after_added.
    split; [apply not_elem_of_removed|]. split; [done|]. apply last_snoc.
  - split; [eauto|]. simpl. rewrite removed_after_added.
    split; [apply not_elem_of_removed|]. split; [done|]. apply last_snoc.
Qed.

Lemma temp_file_removed_on_exit_witness :
  let request := {| comments := [Sample.comment_a; Sample.comment_b] |} in
  (temp_name Sample.rejecting
   ∉ files (snd (@analyze_batch_endpoint Sample.lib Sample.rejecting request
                   Sample.empty_world)))
  ∧ (temp_name (Sample.serving Sample.line_a)
     ∉ files (snd (@analyze_batch_endpoint Sample.lib (Sample.serving Sample.line_a)
                     request Sample.empty_world))).
Proof.
  intros request. split.
  - refine (proj1 (proj2 (@temp_file_removed_on_exit Sample.lib Sample.rejecting
              request Sample.empty_world _
              (Raise (HTTPException 500 "429 RESOURCE_EXHAUSTED")) _ _ _ _))).
    + discriminate.
    + reflexivity.
    + vm_compute. reflexivity.
    + discriminate.
  - refine (proj1 (proj2 (@temp_file_removed_on_exit Sample.lib
              (Sample.serving Sample.line_a) request Sample.empty_world _
              (fst (@analyze_batch_endpoint Sample.lib (Sample.serving Sample.line_a)
                      request Sample.empty_world)) _ _ _ _))).
    + discriminate.
    + reflexivity.
    + vm_compute. reflexivity.
    + vm_compute. discriminate.
Defined.

(** C10. The endpoint answers an empty list with HTTP 400. Once the request
    file is staged, an exception raised by the submitter and poller or by
    the fetcher and reconciler leaves the endpoint as one HTTP 500 whose
    detail is [str] of that exception, and no other exception leaves it. *)
Theorem endpoint_status_codes `{Externals} (B : backend) (request : BatchRequest)
    (w : world) :
  (comments request = [] →
   analyze_batch_endpoint B request w
   = (Raise (HTTPException 400 "Lista komentarzy jest pusta."), w))
  ∧ (comments request ≠ [] → write_error B = None →
     let path := temp_name B in
     let original_map := original_map_of (comments request) in
     (∀ e w2,
        run_google_batch_process B path (staged B request w) = (Raise e, w2) →
        analyze_batch_endpoint B request w
        = (Raise (HTTPException 500 (exn_str e)), cleaned path w2))
     ∧ (∀ output_file_name w2 e w3,
          run_google_batch_process B path (staged B request w)
          = (Return output_file_name, w2) →
          parse_results B output_file_name original_map w2 = (Raise e, w3) →
          analyze_batch_endpoint B request w
          = (Raise (HTTPException 500 (exn_str e)), cleaned path w3))
     ∧ (∀ e w', analyze_batch_endpoint B request w = (Raise e, w') →
          ∃ detail, e = HTTPException 500 detail)).
Proof.
  split; [apply analyze_batch_endpoint_empty|].
  intros Hne Hwrite path original_map. repeat split.
  - intros e w2 Hrun.
    apply (analyze_batch_endpoint_of_pipeline B request w w2 (Raise e) Hne Hwrite).
    unfold pipeline, io_bind at 1. fold path. by rewrite Hrun.
  - intros name w2 e w3 Hrun Hparse.
    apply (analyze_batch_endpoint_of_pipeline B request w w3 (Raise e) Hne Hwrite).
    unfold pipeline, io_bind at 1. fold path. rewrite Hrun.
    unfold io_bind at 1. fold original_map. by rewrite Hparse.
  - intros e w' Hrun.
    destruct (analyze_batch_endpoint_run B request w Hne Hwrite)
      as (o & evs & _ & Hend).
    rewrite Hend in Hrun. destruct o; injection Hrun as <- _ || discriminate Hrun. eauto.
Qed.

Lemma endpoint_status_codes_witness :
  let request := {| comments := [Sample.comment_a; Sample.comment_b] |} in
  fst (@analyze_batch_endpoint Sample.lib Sample.rejecting {| comments := [] |}
         Sample.empty_world)
  = Raise (HTTPException 400 "Lista komentarzy jest pusta.")
  ∧ fst (@analyze_batch_endpoint Sample.lib Sample.rejecting request Sample.empty_world)
    = Raise (HTTPException 500 "429 RESOURCE_EXHAUSTED")
  ∧ fst (@analyze_batch_endpoint Sample.lib (Sample.serving Sample.garbled) request
           Sample.empty_world)
    = Raise (HTTPException 500
               "cannot access local variable 'custom_id' where it is not associated with a value")
  ∧ ∃ detail, HTTPException 500 "429 RESOURCE_EXHAUSTED" = HTTPException 500 detail.
Proof.
  intros request.
  destruct (@endpoint_status_codes Sample.lib Sample.rejecting {| comments := [] |}
              Sample.empty_world) as [Hempty _].
  destruct (@endpoint_status_codes Sample.lib Sample.rejecting request Sample.empty_world)
    as [_ Hrejecting].
  destruct (@endpoint_status_codes Sample.lib (Sample.serving Sample.garbled) request
              Sample.empty_world) as [_ Hgarbled].
  destruct Hrejecting as (Hsubmit & _ & Hany); [discriminate|reflexivity|].
  destruct Hgarbled as (_ & Hparse & _); [discriminate|reflexivity|].
  split; [|split; [|split]].
  - exact (f_equal fst (Hempty eq_refl)).
  - refine (f_equal fst (Hsubmit (ClientError "429 RESOURCE_EXHAUSTED") _ _)).
    reflexivity.
  - refine (f_equal fst
              (Hparse "files/out-1" _
                 (UnboundLocalError
                    "cannot access local variable 'custom_id' where it is not associated with a value")
                 _ _ _)).
    + vm_compute. reflexivity.
    + vm_compute. reflexivity.
  - refine (Hany _ (snd (@analyze_batch_endpoint Sample.lib Sample.rejecting request
                           Sample.empty_world)) _).
    vm_compute. reflexivity.
Defined.

(** C3, as the code has it. An empty list is refused at once, with HTTP 400
    and before any file is created or call made. A non-empty list is not
    checked for duplicate ids: whatever its ids, the request document is
    written to the temporary file and uploaded. *)
Theorem empty_refused_rest_submitted `{Externals} (B : backend) (request : BatchRequest)
    (w : world) :
  (comments request = [] →
   analyze_batch_endpoint B request w
   = (Raise (HTTPException 400 "Lista komentarzy jest pusta."), w))
  ∧ (comments request ≠ [] → write_error B = None →
     ∃ o w' evs,
       analyze_batch_endpoint B request w = (o, w')
       ∧ trace w'
         = trace w
           ++ [ EvTempFile (temp_name B);
                EvWrite (temp_name B) (create_jsonl_content (comments request));
                EvUpload (temp_name B) ]
           ++ evs).
Proof.
  split; [apply analyze_batch_endpoint_empty|].
  intros Hne Hwrite.
  destruct (analyze_batch_endpoint_run B request w Hne Hwrite) as (o & evs & _ & Hend).
  destruct o as [resp|e|]; rewrite Hend.
  - eexists _, _, (evs ++ [EvRemove (temp_name B)]). split; [done|]. simpl.
    by rewrite <- !app_assoc.
  - eexists _, _, (evs ++ [EvRemove (temp_name B)]). split; [done|]. simpl.
    by rewrite <- !app_assoc.
  - eexists _, _, evs. split; [done|]. simpl. by rewrite <- !app_assoc.
Qed.

Lemma empty_refused_rest_submitted_witness :
  let request := {| comments := [Sample.comment_a; Sample.comment_a_again] |} in
  @analyze_batch_endpoint Sample.lib (Sample.serving Sample.line_a) {| comments := [] |}
    Sample.empty_world
  = (Raise (HTTPException 400 "Lista komentarzy jest pusta."), Sample.empty_world)
  ∧ ∃ o w' evs,
      @analyze_batch_endpoint Sample.lib (Sample.serving Sample.line_a) request
        Sample.empty_world = (o, w')
      ∧ trace w'
        = trace Sample.empty_world
          ++ [ EvTempFile "/tmp/tmpk3v9.jsonl";
               EvWrite "/tmp/tmpk3v9.jsonl"
                 (@create_jsonl_content Sample.lib (comments request));
               EvUpload "/tmp/tmpk3v9.jsonl" ]
          ++ evs.
Proof.
  intros request. split.
  - refine (proj1 (@empty_refused_rest_submitted Sample.lib (Sample.serving Sample.line_a)
              {| comments := [] |} Sample.empty_world) _).
    reflexivity.
  - refine (proj2 (@empty_refused_rest_submitted Sample.lib (Sample.serving Sample.line_a)
              request Sample.empty_world) _ _).
    + discriminate.
    + reflexivity.
Defined.

(** The claim C3 fails as stated: two items share the id "a", and the
    endpoint raises nothing. It writes both request lines, uploads them,
    polls the job and answers with a single record, the text of the second
    item under the analysis of the first. *)
Lemma duplicate_ids_are_submitted :
  let request := {| comments := [Sample.comment_a; Sample.comment_a_again] |} in
  let run := @analyze_batch_endpoint Sample.lib (Sample.serving Sample.line_a) request
               Sample.empty_world in
  ¬ NoDup (map comment_id (comments request))
  ∧ fst run
    = Return {| results := [ {| ac_id := "a"; ac_text := "Nice weather today";
                                analysis := Some Sample.validated_a; error := None |} ];
                total_processed := 1; status := "completed" |}
  ∧ EvWrite "/tmp/tmpk3v9.jsonl" (@create_jsonl_content Sample.lib (comments request))
    ∈ trace (snd run)
  ∧ EvUpload "/tmp/tmpk3v9.jsonl" ∈ trace (snd run)
  ∧ ¬ ∃ e, run = (Raise e, Sample.empty_world).
Proof.
  intros request run.
  assert (fst run
          = Return {| results := [ {| ac_id := "a"; ac_text := "Nice weather today";
                                      analysis := Some Sample.validated_a;
                                      error := None |} ];
                      total_processed := 1; status := "completed" |}) as Hrun
    by (vm_compute; reflexivity).
  split; [intros Hnd; by apply NoDup_cons_1_1 in Hnd; apply Hnd; left|].
  split; [exact Hrun|].
  split; [vm_compute; do 1 right; left|].
  split; [vm_compute; do 2 right; left|].
  intros [e He]. rewrite He in Hrun. discriminate Hrun.
Qed.

(** The end-to-end example: a result for "a", no line for "b". *)
Example end_to_end :
  fst (@analyze_batch_endpoint Sample.lib (Sample.serving Sample.line_a)
         {| comments := [Sample.comment_a; Sample.comment_b] |} Sample.empty_world)
  = Return
      {| results :=
           [ {| ac_id := "a"; ac_text := "You are useless";
                analysis := Some Sample.validated_a; error := None |};
             {| ac_id := "b"; ac_text := "Nice weather today"; analysis := None;
                error := Some "No result found (Job failed or ID mismatch)" |} ];
         total_processed := 2;
         status := "completed" |}.
Proof. vm_compute. reflexivity. Qed.

(** The write to the temporary file stands before the [try] statement: when
    it raises, the exception leaves the endpoint as it is and the file,
    created with [delete=False], stays. *)
Lemma write_failure_leaves_temp_file `{Externals} (B : backend) (request : BatchRequest)
    (w : world) (e : exn) :
  comments request ≠ [] → write_error B = Some e →
  ∃ w', analyze_batch_endpoint B request w = (Raise e, w')
        ∧ temp_name B ∈ files w'.
Proof.
  intros Hne Hwrite. unfold analyze_batch_endpoint.
  destruct (comments request) as [|c cs]; [done|].
  unfold io_bind at 1, named_temporary_file.
  unfold io_bind at 1, temp_write, call, io_bind at 1, emit. rewrite Hwrite. simpl.
  eexists. split; [done|]. simpl. apply elem_of_union_l, elem_of_singleton. done.
Qed.

(** * Further properties *)

(** ** The upload loop and the submission *)

Lemma wait_for_file_ready (replies : list (result file_obj)) (f : file_obj) (w : world) :
  ¬ still_processing f → wait_for_file replies f w = (Return f, w).
Proof.
  unfold still_processing. intros Hf.
  destruct replies; simpl; by destruct (String.eqb_spec (file_state f) "STATE_PROCESSING").
Qed.

Lemma wait_for_file_step (r : file_obj) (replies : list (result file_obj))
    (f : file_obj) (w : world) :
  still_processing f →
  wait_for_file (Ok r :: replies) f w
  = wait_for_file replies r (logged w [EvSleep 1; EvFilesGet (file_name f)]).
Proof.
  unfold still_processing. intros Hf. cbn [wait_for_file]. rewrite Hf. cbn.
  unfold io_bind, sleep, call, emit, io_bind, io_ret. cbn.
  unfold logged. cbn. by rewrite <- app_assoc.
Qed.

Lemma wait_for_file_through (pre : list file_obj) (g : file_obj)
    (post : list (result file_obj)) (f : file_obj) (w : world) :
  Forall still_processing (f :: pre) →
  wait_for_file (map Ok (pre ++ [g]) ++ post) f w
  = wait_for_file post g (logged w (waiting_trace f (pre ++ [g]))).
Proof.
  revert f w. induction pre as [|f' pre IH]; intros f w Hall.
  - apply Forall_cons in Hall as [Hf _]. cbn [app map waiting_trace].
    by rewrite wait_for_file_step.
  - apply Forall_cons in Hall as [Hf Hall]. cbn [app map waiting_trace].
    rewrite wait_for_file_step by done. rewrite IH by done.
    by rewrite logged_logged.
Qed.

(** X1. The submitter starts the job on the first file status that is not
    STATE_PROCESSING, whatever that status is: the uploaded file when it is
    ready at once, else the first reply of [client.files.get] that differs,
    after a one second sleep before each check. The job is created for the
    fixed model with that file's name, and the poll runs under the name of
    the created job. *)
Theorem job_starts_on_first_settled_file (B : backend) (jsonl_file_path : string)
    (w : world) (f g : file_obj) (pre : list file_obj) (post : list (result file_obj))
    (j : batch_job) :
  upload_reply B = Ok f → create_reply B = Ok j →
  (¬ still_processing f →
   run_google_batch_process B jsonl_file_path w
   = poll (batches_get_replies B) (job_name j)
       (logged w [EvUpload jsonl_file_path; EvBatchCreate MODEL_ID (file_name f)]))
  ∧ (Forall still_processing (f :: pre) → ¬ still_processing g →
     files_get_replies B = map Ok (pre ++ [g]) ++ post →
     run_google_batch_process B jsonl_file_path w
     = poll (batches_get_replies B) (job_name j)
         (logged w (EvUpload jsonl_file_path :: waiting_trace f (pre ++ [g])
                    ++ [EvBatchCreate MODEL_ID (file_name g)]))).
Proof.
  intros Hupload Hcreate. unfold run_google_batch_process. rewrite Hupload, Hcreate.
  split.
  - intros Hf. unfold io_bind at 1, call at 1, io_bind at 1, emit at 1, io_ret at 1.
    unfold io_bind at 1. rewrite wait_for_file_ready by done.
    unfold io_bind at 1, call at 1, io_bind at 1, emit at 1, io_ret at 1. cbn.
    f_equal. unfold logged. cbn. by rewrite <- app_assoc.
  - intros Hall Hg ->.
    unfold io_bind at 1, call at 1, io_bind at 1, emit at 1, io_ret at 1.
    unfold io_bind at 1. rewrite wait_for_file_through by done.
    rewrite wait_for_file_ready by done.
    unfold io_bind at 1, call at 1, io_bind at 1, emit at 1, io_ret at 1. cbn.
    f_equal. unfold logged. cbn. rewrite <- !app_assoc. done.
Qed.

Lemma job_starts_on_first_settled_file_witness :
  fst (run_google_batch_process (Sample.serving Sample.line_a) "/tmp/tmpk3v9.jsonl"
         Sample.empty_world)
  = fst (poll [Ok Sample.running; Ok Sample.running; Ok Sample.succeeded] "batches/j1"
           (logged Sample.empty_world
              [EvUpload "/tmp/tmpk3v9.jsonl"; EvSleep 1; EvFilesGet "files/in-1";
               EvBatchCreate MODEL_ID "files/in-1"]))
  ∧ fst (run_google_batch_process Sample.failed_upload "/tmp/tmpk3v9.jsonl"
           Sample.empty_world)
    = fst (poll [Ok Sample.succeeded] "batches/j1"
             (logged Sample.empty_world
                [EvUpload "/tmp/tmpk3v9.jsonl"; EvBatchCreate MODEL_ID "files/in-1"])).
Proof.
  split.
  - refine (f_equal fst
              (proj2 (job_starts_on_first_settled_file (Sample.serving Sample.line_a)
                        "/tmp/tmpk3v9.jsonl" Sample.empty_world
                        {| file_name := "files/in-1"; file_state := "STATE_PROCESSING" |}
                        {| file_name := "files/in-1"; file_state := "ACTIVE" |}
                        [] [] Sample.running eq_refl eq_refl) _ _ eq_refl)).
    + repeat constructor.
    + discriminate.
  - refine (f_equal fst
              (proj1 (job_starts_on_first_settled_file Sample.failed_upload
                        "/tmp/tmpk3v9.jsonl" Sample.empty_world
                        {| file_name := "files/in-1"; file_state := "FAILED" |}
                        {| file_name := "files/in-1"; file_state := "FAILED" |}
                        [] [] Sample.running eq_refl eq_refl) _)).
    discriminate.
Defined.

(** ** The calls of a submission *)

Lemma wait_for_file_trace (replies : list (result file_obj)) (f : file_obj)
    (w w' : world) (o : outcome file_obj) :
  wait_for_file replies f w = (o, w') →
  ∃ evs, w' = logged w evs ∧ Forall is_file_wait evs.
Proof.
  revert f w. induction replies as [|r replies IH]; intros f w; simpl.
  - destruct (String.eqb _ _); intros [= <- <-]; exists []; by rewrite logged_nil.
  - destruct (String.eqb _ _).
    2:{ intros [= <- <-]; exists []; by rewrite logged_nil. }
    unfold io_bind at 1, sleep, emit. unfold io_bind at 1, call, io_bind at 1, emit.
    destruct r as [g|e]; simpl.
    + intros (evs & -> & Hevs)%IH.
      exists (EvSleep 1 :: EvFilesGet (file_name f) :: evs). split.
      * unfold logged. simpl. by rewrite <- !app_assoc.
      * by repeat constructor.
    + intros [= <- <-]. exists [EvSleep 1; EvFilesGet (file_name f)]. split.
      * unfold logged. simpl. by rewrite <- !app_assoc.
      * by repeat constructor.
Qed.

Lemma poll_inv (replies : list (result batch_job)) (name : string) (w w' : world)
    (o : outcome string) :
  poll replies name w = (o, w') →
  (∃ evs, w' = logged w evs ∧ Forall is_poll evs)
  ∧ ∀ output_file_name, o = Return output_file_name →
      Exists (succeeded_with output_file_name) replies.
Proof.
  revert w. induction replies as [|r replies IH]; intros w; simpl.
  - intros [= <- <-]. split; [exists []; by rewrite logged_nil|done].
  - unfold io_bind at 1, call, io_bind at 1, emit.
    destruct r as [st|e]; simpl.
    2:{ intros [= <- <-]. split; [|done]. exists [EvBatchGet name]. by repeat constructor. }
    destruct (String.eqb_spec (job_state st) "JOB_STATE_SUCCEEDED") as [Hs|_].
    { intros [= <- <-]. split.
      - exists [EvBatchGet name]. by repeat constructor.
      - intros ? [= <-]. left. by exists st. }
    destruct (String.eqb (job_state st) "JOB_STATE_FAILED").
    { intros [= <- <-]. split; [|done]. exists [EvBatchGet name]. by repeat constructor. }
    destruct (_ || _).
    { intros [= <- <-]. split; [|done]. exists [EvBatchGet name]. by repeat constructor. }
    unfold io_bind at 1, sleep, emit. simpl.
    intros [(evs & -> & Hevs) Hret]%IH. split.
    + exists (EvBatchGet name :: EvSleep 5 :: evs). split.
      * unfold logged. simpl. by rewrite <- !app_assoc.
      * by repeat constructor.
    + intros out Hout. right. by apply Hret.
Qed.

Lemma run_google_batch_process_inv (B : backend) (jsonl_file_path : string)
    (w w' : world) (o : outcome string) :
  run_google_batch_process B jsonl_file_path w = (o, w') →
  (∃ waits creates polls,
     w' = logged w (EvUpload jsonl_file_path :: waits ++ creates ++ polls)
     ∧ Forall is_file_wait waits
     ∧ (creates = [] ∧ polls = [] ∨ ∃ src, creates = [EvBatchCreate MODEL_ID src])
     ∧ Forall is_poll polls)
  ∧ ∀ output_file_name, o = Return output_file_name →
      Exists (succeeded_with output_file_name) (batches_get_replies B).
Proof.
  unfold run_google_batch_process.
  unfold io_bind at 1, call at 1, io_bind at 1, emit at 1.
  destruct (upload_reply B) as [f|e]; simpl.
  2:{ intros [= <- <-]. split; [|done].
      exists [], [], []. split; [same_world|]. repeat split; auto. }
  unfold io_bind at 1.
  destruct (wait_for_file _ _ _) as [o1 w1] eqn:Hwait.
  apply wait_for_file_trace in Hwait as (waits & -> & Hwaits).
  destruct o1 as [g|e|].
  2,3: intros [= <- <-]; (split; [|done]); exists waits, [], [];
       split; [same_world|]; repeat split; auto.
  unfold io_bind at 1, call at 1, io_bind at 1, emit at 1.
  destruct (create_reply B) as [j|e]; simpl.
  2:{ intros [= <- <-]. split; [|done].
      exists waits, [EvBatchCreate MODEL_ID (file_name g)], [].
      split; [same_world|]. repeat split; eauto. }
  intros [(polls & -> & Hpolls) Hret]%poll_inv. split; [|done].
  exists waits, [EvBatchCreate MODEL_ID (file_name g)], polls.
  split; [same_world|]. repeat split; eauto.
Qed.

(** X2. Whatever the backend replies, one run of the submitter and poller
    uploads the file exactly once and first, then only checks the file,
    then creates the job at most once, and polls only after that: nothing
    is uploaded or submitted a second time. *)
Theorem submission_is_never_repeated (B : backend) (jsonl_file_path : string)
    (w w' : world) (o : outcome string) :
  run_google_batch_process B jsonl_file_path w = (o, w') →
  ∃ waits creates polls,
    w' = logged w (EvUpload jsonl_file_path :: waits ++ creates ++ polls)
    ∧ Forall is_file_wait waits
    ∧ (creates = [] ∧ polls = [] ∨ ∃ src, creates = [EvBatchCreate MODEL_ID src])
    ∧ Forall is_poll polls.
Proof. intros Hrun. by apply run_google_batch_process_inv in Hrun as [Hshape _]. Qed.

Lemma submission_is_never_repeated_witness :
  ∃ waits creates polls,
    snd (run_google_batch_process (Sample.serving Sample.line_a) "/tmp/tmpk3v9.jsonl"
           Sample.empty_world)
    = logged Sample.empty_world
        (EvUpload "/tmp/tmpk3v9.jsonl" :: waits ++ creates ++ polls)
    ∧ Forall is_file_wait waits
    ∧ (creates = [] ∧ polls = [] ∨ ∃ src, creates = [EvBatchCreate MODEL_ID src])
    ∧ Forall is_poll polls.
Proof.
  refine (submission_is_never_repeated (Sample.serving Sample.line_a)
            "/tmp/tmpk3v9.jsonl" Sample.empty_world _
            (fst (run_google_batch_process (Sample.serving Sample.line_a)
                    "/tmp/tmpk3v9.jsonl" Sample.empty_world)) _).
  vm_compute. reflexivity.
Defined.

(** ** The polling loop *)

(** X3. The poller does not retry a failed status request: an exception
    raised by [client.batches.get] after any run of non-terminal statuses
    leaves the poller as it is, and no later status is asked for. *)
Theorem poll_propagates_request_error (pre post : list (result batch_job)) (e : exn)
    (name : string) (w : world) :
  Forall pending pre →
  poll (pre ++ Err e :: post) name w
  = (Raise e, logged w (polling_trace name (length pre) ++ [EvBatchGet name])).
Proof.
  intros Hpre. rewrite poll_pending by done. cbn.
  unfold io_bind, call, emit, io_bind, io_raise. cbn.
  f_equal. same_world.
Qed.

Lemma poll_propagates_request_error_witness :
  poll [Ok Sample.running; Err (ClientError "503 UNAVAILABLE"); Ok Sample.succeeded]
       "batches/j1" Sample.empty_world
  = (Raise (ClientError "503 UNAVAILABLE"),
     logged Sample.empty_world
       [EvBatchGet "batches/j1"; EvSleep 5; EvBatchGet "batches/j1"]).
Proof.
  refine (poll_propagates_request_error [Ok Sample.running] [Ok Sample.succeeded]
            (ClientError "503 UNAVAILABLE") "batches/j1" Sample.empty_world _).
  repeat constructor. by eexists.
Defined.

(** X4. The poller is still waiting at the end of a script exactly when every
    reply of the script was a status that is not terminal: it has no bound
    of its own on the number of polls, and any terminal status or failed
    request ends it. *)
Theorem poll_waits_iff_all_pending (replies : list (result batch_job)) (name : string)
    (w : world) :
  fst (poll replies name w) = Diverge ↔ Forall pending replies.
Proof.
  revert w. induction replies as [|r replies IH]; intros w.
  - split; [constructor|done].
  - split.
    + intros Hrun.
      assert (pending r) as Hr.
      { revert Hrun. cbn [poll]. unfold io_bind at 1, call, io_bind at 1, emit.
        destruct r as [st|e]; simpl; [|done].
        intros Hrun. exists st. split; [done|]. unfold terminal.
        destruct (String.eqb (job_state st) "JOB_STATE_SUCCEEDED"); [done|].
        destruct (String.eqb (job_state st) "JOB_STATE_FAILED"); [done|].
        destruct (String.eqb (job_state st) "JOB_STATE_CANCELLED"); [done|].
        destruct (String.eqb (job_state st) "JOB_STATE_EXPIRED"); done. }
      constructor; [done|]. rewrite poll_step in Hrun by done. by apply IH in Hrun.
    + intros [Hr Hall]%Forall_cons. rewrite poll_step by done. by apply IH.
Qed.

Lemma poll_waits_iff_all_pending_witness :
  fst (poll [Ok Sample.running; Ok Sample.running] "batches/j1" Sample.empty_world)
  = Diverge.
Proof.
  refine (proj2 (poll_waits_iff_all_pending [Ok Sample.running; Ok Sample.running]
                   "batches/j1" Sample.empty_world) _).
  repeat constructor; by eexists.
Defined.

(** ** What is fetched *)

Section Fetch.
Context `{Externals}.

Lemma pipeline_downloads (B : backend) (path : string)
    (original_map : list (string * string)) (w w' : world) (o : outcome BatchResponse) :
  pipeline B path original_map w = (o, w') →
  ∃ evs, w' = logged w evs
         ∧ ∀ name, EvDownload name ∈ evs →
             Exists (succeeded_with name) (batches_get_replies B).
Proof.
  unfold pipeline, io_bind at 1.
  destruct (run_google_batch_process B path w) as [o1 w1] eqn:Hrun.
  apply run_google_batch_process_inv in Hrun
    as [(waits & creates & polls & -> & Hwaits & Hcreates & Hpolls) Hret].
  assert (∀ name, EvDownload name ∉ EvUpload path :: waits ++ creates ++ polls) as Hnone.
  { intros name [Hin|[Hin|[Hin|Hin]%elem_of_app]%elem_of_app]%elem_of_cons.
    - discriminate Hin.
    - by apply (proj1 (Forall_forall _ _) Hwaits) in Hin.
    - destruct Hcreates as [[-> _]|[src ->]]; [by apply elem_of_nil in Hin|].
      by apply list_elem_of_singleton in Hin.
    - by apply (proj1 (Forall_forall _ _) Hpolls) in Hin. }
  destruct o1 as [output_file_name|e|].
  2,3: intros [= <- <-]; eexists; split; [done|]; intros name Hin; by apply Hnone in Hin.
  specialize (Hret _ eq_refl).
  unfold io_bind at 1, parse_results, io_bind at 1, call, io_bind at 1, emit. simpl.
  intros Hrest.
  exists ((EvUpload path :: waits ++ creates ++ polls) ++ [EvDownload output_file_name]).
  split.
  - revert Hrest. destruct (download_reply B output_file_name) as [content|e]; simpl.
    + unfold io_bind at 1, of_result.
      destruct (bytes_decode content) as [text_content|e]; simpl.
      * destruct (reconcile text_content original_map); simpl; intros [= <- <-]; same_world.
      * intros [= <- <-]. same_world.
    + intros [= <- <-]. same_world.
  - intros name [Hin|Hin]%elem_of_app; [by apply Hnone in Hin|].
    apply list_elem_of_singleton in Hin. by injection Hin as ->.
Qed.

End Fetch.

(** X5. The endpoint downloads a file only when a reply of
    [client.batches.get] reported the job as succeeded, and the file it
    downloads is the output file that reply names; after a failed, stopped
    or unfinished job nothing is fetched. *)
Theorem download_only_after_success `{Externals} (B : backend) (request : BatchRequest)
    (w w' : world) (o : outcome BatchResponse) :
  analyze_batch_endpoint B request w = (o, w') →
  ∃ evs, trace w' = trace w ++ evs
         ∧ ∀ name, EvDownload name ∈ evs →
             Exists (succeeded_with name) (batches_get_replies B).
Proof.
  intros Hrun.
  destruct (decide (comments request = [])) as [Hempty|Hne].
  { rewrite analyze_batch_endpoint_empty in Hrun by done. injection Hrun as <- <-.
    exists []. split; [by rewrite app_nil_r|]. by intros name Hin%elem_of_nil. }
  destruct (write_error B) as [e|] eqn:Hwrite.
  { destruct (write_failure_leaves_temp_file B request w e Hne Hwrite) as (w1 & Hw1 & _).
    revert Hrun Hw1. unfold analyze_batch_endpoint.
    destruct (comments request); [done|].
    unfold io_bind at 1, named_temporary_file.
    unfold io_bind at 1, temp_write, call, io_bind at 1, emit. rewrite Hwrite. simpl.
    intros [= <- <-] _. simpl. eexists. split; [by rewrite <- app_assoc|].
    intros name [Hin|[Hin|Hin%elem_of_nil]%elem_of_cons]%elem_of_cons; done. }
  destruct (analyze_batch_endpoint_run B request w Hne Hwrite) as (o' & evs & Hpipe & Hend).
  simpl in Hpipe. apply pipeline_downloads in Hpipe as Hdown.
  destruct Hdown as (evs' & Hevs' & Hdown).
  assert (EvUpload (temp_name B) :: evs = evs') as Heq.
  { apply (f_equal trace) in Hevs'. simpl in Hevs'. by apply app_inv_head in Hevs'. }
  rewrite Hend in Hrun.
  assert (∃ tail, trace w'
                  = trace w ++ [EvTempFile (temp_name B);
                                EvWrite (temp_name B)
                                  (create_jsonl_content (comments request))]
                    ++ evs' ++ tail
                  ∧ ∀ name, EvDownload name ∉ tail) as (tail & -> & Htail).
  { rewrite <- Heq.
    destruct o'; injection Hrun as <- <-.
    - exists [EvRemove (temp_name B)]. split; [simpl; by rewrite <- !app_assoc|].
      intros name Hin. by apply list_elem_of_singleton in Hin.
    - exists [EvRemove (temp_name B)]. split; [simpl; by rewrite <- !app_assoc|].
      intros name Hin. by apply list_elem_of_singleton in Hin.
    - exists []. split; [simpl; by rewrite <- !app_assoc, app_nil_r|].
      by intros name Hin%elem_of_nil. }
  eexists. split; [done|].
  intros name [Hin|[Hin|Hin]%elem_of_app]%elem_of_app.
  - apply elem_of_cons in Hin as [Hin|Hin]; [done|].
    by apply list_elem_of_singleton in Hin.
  - by apply Hdown.
  - by apply Htail in Hin.
Qed.

Lemma download_only_after_success_witness :
  ∃ evs,
    trace (snd (@analyze_batch_endpoint Sample.lib (Sample.serving Sample.line_a)
                  {| comments := [Sample.comment_a; Sample.comment_b] |}
                  Sample.empty_world))
    = trace Sample.empty_world ++ evs
    ∧ ∀ name, EvDownload name ∈ evs →
        Exists (succeeded_with name)
          (batches_get_replies (Sample.serving Sample.line_a)).
Proof.
  refine (@download_only_after_success Sample.lib (Sample.serving Sample.line_a)
            {| comments := [Sample.comment_a; Sample.comment_b] |} Sample.empty_world _
            (fst (@analyze_batch_endpoint Sample.lib (Sample.serving Sample.line_a)
                    {| comments := [Sample.comment_a; Sample.comment_b] |}
                    Sample.empty_world)) _).
  vm_compute. reflexivity.
Defined.

(** ** The line loop never reads its dictionary *)

Lemma apply_writes_app (ws1 ws2 : list (string * json)) (rm : gmap string json) :
  apply_writes (ws1 ++ ws2) rm = apply_writes ws2 (apply_writes ws1 rm).
Proof. unfold apply_writes. by rewrite foldl_app. Qed.

Lemma lookup_apply_writes (ws : list (string * json)) (rm : gmap string json)
    (k : string) :
  apply_writes ws rm !! k = match written ws k with Some v => Some v | None => rm !! k end.
Proof.
  revert rm. induction ws as [|[k' v] ws IH]; intros rm; [done|].
  change (apply_writes ((k', v) :: ws) rm) with (apply_writes ws (<[k':=v]> rm)).
  rewrite IH. simpl. destruct (written ws k); [done|].
  destruct (String.eqb_spec k k') as [->|Hne].
  - by rewrite lookup_insert_eq.
  - by rewrite lookup_insert_ne.
Qed.

Lemma write_only_ret {A} (a : A) : write_only (scan_ret a).
Proof. intros c. by exists (Ok a), c, []. Qed.

Lemma write_only_lift {A} (r : result A) : write_only (lift r).
Proof. intros c. by exists r, c, []. Qed.

Lemma write_only_assign (v : json) : write_only (assign_custom_id v).
Proof. intros c. by exists (Ok tt), (Some v), []. Qed.

Lemma write_only_read : write_only read_custom_id.
Proof.
  intros [v|]; unfold read_custom_id; simpl.
  - by exists (Ok v), (Some v), [].
  - by eexists (Err _), None, [].
Qed.

Lemma write_only_setitem (k v : json) : write_only (setitem k v).
Proof.
  intros c. unfold setitem.
  destruct k as [| | | |s| |]; try (by eexists _, c, []).
  by exists (Ok tt), c, [(s, v)].
Qed.

Lemma write_only_bind {A B} (m : scan A) (k : A → scan B) :
  write_only m → (∀ a, write_only (k a)) → write_only (scan_bind m k).
Proof.
  intros Hm Hk c. destruct (Hm c) as (r & c1 & ws1 & Hrun).
  destruct r as [a|e].
  - destruct (Hk a c1) as (r2 & c2 & ws2 & Hrun2).
    exists r2, c2, (ws1 ++ ws2). intros rm. unfold scan_bind.
    by rewrite Hrun, Hrun2, apply_writes_app.
  - exists (Err e), c1, ws1. intros rm. unfold scan_bind. by rewrite Hrun.
Qed.

Lemma write_only_try_except {A} (body : scan A) (handler : exn → scan A) :
  write_only body → (∀ e, write_only (handler e)) → write_only (try_except body handler).
Proof.
  intros Hm Hk c. destruct (Hm c) as (r & c1 & ws1 & Hrun).
  destruct r as [a|e].
  - exists (Ok a), c1, ws1. intros rm. unfold try_except. by rewrite Hrun.
  - destruct (Hk e c1) as (r2 & c2 & ws2 & Hrun2).
    exists r2, c2, (ws1 ++ ws2). intros rm. unfold try_except.
    by rewrite Hrun, Hrun2, apply_writes_app.
Qed.

Section WriteOnly.
Context `{Externals}.

Lemma write_only_extract_result (item : json) : write_only (extract_result item).
Proof.
  unfold extract_result, store.
  repeat first
    [ apply write_only_setitem
    | apply write_only_read
    | apply write_only_bind; [first [apply write_only_lift | apply write_only_read]
                             | intros ?]
    | match goal with |- write_only (if ?b then _ else _) => destruct b end ].
Qed.

Lemma write_only_scan_line (line : string) : write_only (scan_line line).
Proof.
  unfold scan_line. destruct (String.eqb line ""); [apply write_only_ret|].
  apply write_only_try_except.
  - unfold try_body.
    apply write_only_bind; [apply write_only_lift|]. intros item.
    apply write_only_bind; [apply write_only_lift|]. intros cid.
    apply write_only_bind; [apply write_only_assign|]. intros _.
    apply write_only_extract_result.
  - intros e. unfold except_clause.
    apply write_only_bind; [apply write_only_read|]. intros cid.
    destruct (truthy cid); [apply write_only_setitem | apply write_only_ret].
Qed.

Lemma write_only_for_each (lines : list string) : write_only (for_each lines scan_line).
Proof.
  induction lines as [|line lines IH]; simpl; [apply write_only_ret|].
  apply write_only_bind; [apply write_only_scan_line | by intros _].
Qed.

End WriteOnly.

(** ** Documents whose lines carry their ids *)

Section Attributed.
Context `{Externals}.

Lemma line_id_inv (line k : string) :
  line_id line = Some k →
  ∃ d, json_loads line = Ok (JDict d) ∧ assoc_get "custom_id" d = Some (JStr k).
Proof.
  unfold line_id. destruct (json_loads line) as [[| | | | | |d]|]; try done.
  destruct (assoc_get "custom_id" d) as [[| | | |s| |]|] eqn:Hd; try done.
  intros [= <-]. eauto.
Qed.

Lemma scan_line_decoded (line : string) (d : list (string * json)) (k : string)
    (σ : scan_state) :
  line ≠ "" → json_loads line = Ok (JDict d) →
  assoc_get "custom_id" d = Some (JStr k) →
  scan_line line σ
  = try_except (extract_result (JDict d)) except_clause
      {| results_map := results_map σ; custom_id := Some (JStr k) |}.
Proof.
  intros Hline Hload Hd. unfold scan_line.
  destruct (String.eqb_spec line "") as [?|_]; [done|].
  unfold try_except, try_body, scan_bind at 1, lift at 1. rewrite Hload.
  unfold scan_bind at 1, lift at 1. simpl. rewrite Hd. simpl.
  unfold scan_bind at 1, assign_custom_id. done.
Qed.

(** A line that carries the id [k] leaves [k] in [custom_id] and writes at
    most the entry under [k], with a value that depends on the line only. *)
Lemma scan_line_attributed (line k : string) (σ : scan_state) :
  line ≠ "" → line_id line = Some k →
  scan_line line σ
  = (Ok tt,
     {| results_map := match stored_by line with
                       | Some v => <[k := v]> (results_map σ)
                       | None => results_map σ
                       end;
        custom_id := Some (JStr k) |}).
Proof.
  intros Hline Hk. destruct (line_id_inv line k Hk) as (d & Hload & Hd).
  assert (write_only (try_except (extract_result (JDict d)) except_clause)) as Hwo.
  { apply write_only_try_except; [apply write_only_extract_result|].
    intros e. unfold except_clause.
    apply write_only_bind; [apply write_only_read|]. intros cid.
    destruct (truthy cid); [apply write_only_setitem | apply write_only_ret]. }
  destruct (Hwo (Some (JStr k))) as (r & c' & ws & Hrun).
  assert (∀ τ, scan_line line τ
               = (r, {| results_map := apply_writes ws (results_map τ);
                        custom_id := c' |})) as Hall.
  { intros τ. rewrite (scan_line_decoded line d k τ) by done. apply Hrun. }
  assert (r = Ok tt) as ->.
  { destruct (scan_line_attributable line scan_start) as [σ' Hσ'].
    - right. by rewrite Hk.
    - rewrite Hall in Hσ'. by injection Hσ' as -> _. }
  assert (c' = Some (JStr k)) as ->.
  { pose proof (Hall {| results_map := ∅; custom_id := Some (JStr k) |}) as Hk0.
    apply scan_line_inv in Hk0 as [[Hc|(d' & Hload' & Hc)] _]; simpl in Hc; [done|].
    rewrite Hload in Hload'. injection Hload' as <-. by rewrite Hd in Hc. }
  assert (∀ k', k' ≠ k → written ws k' = None) as Hother.
  { intros k' Hne. pose proof (Hall scan_start) as H0.
    apply scan_line_inv in H0 as [_ Hframe]. simpl in Hframe.
    specialize (Hframe k'). rewrite lookup_apply_writes, lookup_empty in Hframe.
    destruct (written ws k'); [|done].
    discriminate Hframe. congruence. }
  assert (stored_by line = written ws k) as ->.
  { unfold stored_by. rewrite Hk. simpl. rewrite Hall. simpl.
    rewrite lookup_apply_writes, lookup_empty. by destruct (written ws k). }
  rewrite Hall. f_equal. f_equal. apply map_eq. intros k'.
  rewrite lookup_apply_writes.
  destruct (decide (k' = k)) as [->|Hne].
  - destruct (written ws k); [by rewrite lookup_insert_eq|done].
  - rewrite Hother by done. destruct (written ws k); [by rewrite lookup_insert_ne|done].
Qed.

Lemma for_each_attributed (lines : list string) (σ : scan_state) :
  Forall attributable lines →
  ∃ c', for_each lines scan_line σ
        = (Ok tt, {| results_map := apply_writes (document_writes lines) (results_map σ);
                     custom_id := c' |}).
Proof.
  intros Hall. revert σ. induction Hall as [|line lines Hline _ IH]; intros σ.
  - exists (custom_id σ). by destruct σ.
  - simpl. unfold scan_bind.
    destruct (decide (line = "")) as [->|Hne].
    + assert (scan_line "" σ = (Ok tt, σ)) as -> by done.
      destruct (IH σ) as [c' ->]. exists c'. do 2 f_equal.
      unfold document_writes. simpl. unfold stored_by.
      destruct (line_id ""); simpl; [|done]. by rewrite lookup_empty.
    + destruct Hline as [?|[k Hk]]; [done|].
      rewrite (scan_line_attributed line k σ) by done.
      match goal with |- context [for_each lines scan_line ?τ] =>
        destruct (IH τ) as [c' ->] end.
      exists c'. do 2 f_equal. simpl.
      unfold document_writes. simpl. rewrite Hk. simpl.
      by destruct (stored_by line).
Qed.

Lemma scan_lines_attributed (text_content : string) :
  Forall attributable (split_lines (strip text_content)) →
  scan_lines text_content
  = Ok (apply_writes (document_writes (split_lines (strip text_content))) ∅).
Proof.
  intros Hall. unfold scan_lines.
  destruct (for_each_attributed _ {| results_map := ∅; custom_id := None |} Hall)
    as [c' ->].
  done.
Qed.

End Attributed.

Lemma written_app (ws1 ws2 : list (string * json)) (k : string) :
  written (ws1 ++ ws2) k
  = match written ws2 k with Some v => Some v | None => written ws1 k end.
Proof.
  induction ws1 as [|[k' v] ws1 IH]; simpl; [by destruct (written ws2 k)|].
  rewrite IH. by destruct (written ws2 k).
Qed.

Lemma written_None (ws : list (string * json)) (k : string) :
  k ∉ ws.*1 → written ws k = None.
Proof.
  induction ws as [|[k' v] ws IH]; simpl; [done|].
  intros [Hne Hk]%not_elem_of_cons. rewrite IH by done.
  by destruct (String.eqb_spec k k').
Qed.

Lemma written_elem_of (ws : list (string * json)) (k : string) (v : json) :
  NoDup ws.*1 → written ws k = Some v ↔ (k, v) ∈ ws.
Proof.
  induction ws as [|[k' v'] ws IH]; simpl.
  - intros _. split; [done|by intros ?%elem_of_nil].
  - intros [Hk' Hnd]%NoDup_cons. specialize (IH Hnd). split.
    + destruct (written ws k) as [v''|] eqn:Hw.
      * intros [= ->]. right. by apply IH.
      * destruct (String.eqb_spec k k') as [->|_]; [|done]. intros [= ->]. left.
    + intros [[= -> ->]|Hin]%elem_of_cons.
      * rewrite written_None by done. by rewrite String.eqb_refl.
      * apply IH in Hin as ->. done.
Qed.

Section Documents.
Context `{Externals}.

Lemma document_writes_keys (lines : list string) (k : string) :
  k ∈ (document_writes lines).*1 → k ∈ omap line_id lines.
Proof.
  induction lines as [|line lines IH]; [done|].
  unfold document_writes. simpl.
  destruct (line_id line) as [k'|]; simpl; [|exact IH].
  destruct (stored_by line); simpl.
  - intros [->|Hin]%elem_of_cons; [left|right; by apply IH].
  - intros Hin. right. by apply IH.
Qed.

Lemma document_writes_NoDup (lines : list string) :
  NoDup (omap line_id lines) → NoDup (document_writes lines).*1.
Proof.
  induction lines as [|line lines IH]; [constructor|].
  unfold document_writes. simpl.
  destruct (line_id line) as [k|]; simpl; [|exact IH].
  intros [Hk Hnd]%NoDup_cons. destruct (stored_by line); simpl; [|by apply IH].
  constructor; [|by apply IH]. intros Hin. by apply Hk, document_writes_keys.
Qed.

Lemma document_writes_app (pre post : list string) :
  document_writes (pre ++ post) = document_writes pre ++ document_writes post.
Proof. unfold document_writes. by rewrite omap_app. Qed.

Lemma written_last_line (pre post : list string) (line k : string) :
  line_id line = Some k → k ∉ omap line_id post →
  written (document_writes (pre ++ line :: post)) k
  = match stored_by line with
    | Some v => Some v
    | None => written (document_writes pre) k
    end.
Proof.
  intros Hk Hpost.
  rewrite document_writes_app, written_app.
  change (line :: post) with ([line] ++ post).
  rewrite document_writes_app, written_app.
  rewrite (written_None (document_writes post)).
  2:{ intros Hin. by apply Hpost, document_writes_keys. }
  unfold document_writes at 1. simpl. rewrite Hk. simpl.
  destruct (stored_by line); simpl; [by rewrite String.eqb_refl|done].
Qed.

Lemma stores_on_success_store (k : string) (v : json) : stores_on_success k (store v).
Proof.
  intros σ σ' Hc. unfold store, scan_bind, read_custom_id, setitem. rewrite Hc.
  intros [= <-]. simpl. by rewrite lookup_insert_eq.
Qed.

Lemma stores_on_success_bind_lift {A} (k : string) (r : result A) (f : A → scan unit) :
  (∀ a, stores_on_success k (f a)) → stores_on_success k (scan_bind (lift r) f).
Proof.
  intros Hf σ σ' Hc. unfold scan_bind, lift. destruct r as [a|e]; [|done].
  by apply Hf.
Qed.

Lemma stores_on_success_extract_result (k : string) (item : json) :
  stores_on_success k (extract_result item).
Proof.
  unfold extract_result.
  repeat first
    [ apply stores_on_success_store
    | apply stores_on_success_bind_lift; intros ?
    | match goal with |- stores_on_success _ (if ?b then _ else _) => destruct b end ].
Qed.

(** A line that carries a non-empty id always stores an outcome. *)
Lemma stored_by_is_Some (line k : string) :
  line ≠ "" → line_id line = Some k → k ≠ "" → is_Some (stored_by line).
Proof.
  intros Hline Hk Hne. destruct (line_id_inv line k Hk) as (d & Hload & Hd).
  unfold stored_by. rewrite Hk. simpl.
  rewrite (scan_line_decoded line d k scan_start) by done.
  unfold try_except.
  destruct (extract_result _ _) as [[[]|e] σ1] eqn:Hrun.
  - by apply (stores_on_success_extract_result k) in Hrun.
  - apply touches_current_extract_result in Hrun as [Hc _]. simpl in Hc.
    unfold except_clause, scan_bind, read_custom_id. rewrite Hc.
    assert (truthy (JStr k) = true) as ->.
    { simpl. by destruct (String.eqb_spec k ""). }
    simpl. by rewrite lookup_insert_eq.
Qed.

End Documents.

(** X6. In a document whose lines are empty or carry a correlation id, the
    outcome stored for a non-empty id is the one its last line produces when
    scanned on its own: an outcome is stored, and no other line of the
    document changes it. *)
Theorem last_line_decides `{Externals} (text_content k line : string) :
  Forall attributable (split_lines (strip text_content)) →
  last_line_of text_content k line → k ≠ "" →
  ∃ rm, scan_lines text_content = Ok rm
        ∧ is_Some (rm !! k)
        ∧ rm !! k = stored_by line.
Proof.
  intros Hall (pre & post & Hlines & Hline & Hk & Hpost) Hne.
  rewrite scan_lines_attributed by done. eexists. split; [done|].
  rewrite lookup_apply_writes, lookup_empty, Hlines, (written_last_line pre post line k)
    by done.
  destruct (stored_by_is_Some line k Hline Hk Hne) as [v ->]. eauto.
Qed.

Lemma lines_of_document_ab :
  split_lines (strip Sample.document_ab) = [Sample.line_a; Sample.line_b].
Proof. vm_compute. reflexivity. Qed.

Lemma lines_of_document_ba :
  split_lines (strip Sample.document_ba) = [Sample.line_b; Sample.line_a].
Proof. vm_compute. reflexivity. Qed.

Lemma attributable_line_a : @attributable Sample.lib Sample.line_a.
Proof. right. exists "a". vm_compute. reflexivity. Qed.

Lemma attributable_line_b : @attributable Sample.lib Sample.line_b.
Proof. right. exists "b". vm_compute. reflexivity. Qed.

Lemma last_line_decides_witness :
  ∃ rm, @scan_lines Sample.lib Sample.document_ab = Ok rm
        ∧ is_Some (rm !! "b")
        ∧ rm !! "b" = @stored_by Sample.lib Sample.line_b.
Proof.
  refine (@last_line_decides Sample.lib Sample.document_ab "b" Sample.line_b _ _ _).
  - rewrite lines_of_document_ab.
    constructor; [apply attributable_line_a|].
    constructor; [apply attributable_line_b|]. constructor.
  - exists [Sample.line_a], []. split; [apply lines_of_document_ab|].
    split; [discriminate|]. split; [vm_compute; reflexivity|]. apply not_elem_of_nil.
  - discriminate.
Defined.

(** X7. When the lines of the output document are empty or carry a
    correlation id, and no id is carried twice, the reconciled result does
    not depend on the order of the lines. *)
Theorem reconcile_ignores_line_order `{Externals} (text1 text2 : string)
    (items : list (string * string)) :
  Forall attributable (split_lines (strip text1)) →
  NoDup (attributed_ids text1) →
  split_lines (strip text1) ≡ₚ split_lines (strip text2) →
  reconcile text1 items = reconcile text2 items.
Proof.
  unfold attributed_ids. intros Hall Hnd Hperm.
  assert (Forall attributable (split_lines (strip text2))) as Hall2
    by (by rewrite <- Hperm).
  assert (NoDup (omap line_id (split_lines (strip text2)))) as Hnd2
    by (by rewrite <- Hperm).
  unfold reconcile. rewrite !scan_lines_attributed by done. simpl. f_equal.
  apply map_eq. intros k. rewrite !lookup_apply_writes, !lookup_empty.
  apply document_writes_NoDup in Hnd, Hnd2.
  assert (document_writes (split_lines (strip text1))
          ≡ₚ document_writes (split_lines (strip text2))) as Hws.
  { unfold document_writes. by rewrite Hperm. }
  destruct (written (document_writes (split_lines (strip text1))) k) as [v|] eqn:H1.
  - apply written_elem_of in H1; [|done]. rewrite Hws in H1.
    apply written_elem_of in H1; [|done]. by rewrite H1.
  - destruct (written (document_writes (split_lines (strip text2))) k) as [v|] eqn:H2;
      [|done].
    apply written_elem_of in H2; [|done]. rewrite <- Hws in H2.
    apply written_elem_of in H2; [|done]. congruence.
Qed.

Lemma reconcile_ignores_line_order_witness :
  @reconcile Sample.lib Sample.document_ab
    (original_map_of [Sample.comment_a; Sample.comment_b])
  = @reconcile Sample.lib Sample.document_ba
      (original_map_of [Sample.comment_a; Sample.comment_b]).
Proof.
  refine (@reconcile_ignores_line_order Sample.lib _ _ _ _ _ _).
  - rewrite lines_of_document_ab.
    constructor; [apply attributable_line_a|].
    constructor; [apply attributable_line_b|]. constructor.
  - unfold attributed_ids. rewrite lines_of_document_ab.
    apply (bool_decide_unpack _). vm_compute. exact I.
  - rewrite lines_of_document_ab, lines_of_document_ba. apply perm_swap.
Defined.

(** ** What a line stores *)



Section Stored.
Context `{Externals}.







End Stored.

(** ** From a line of the document to the record of its item *)

Section Records.
Context `{Externals}.








End Records.















(** ** How far a garbled line reaches *)

Lemma for_each_app {A} (l1 l2 : list A) (body : A → scan unit) (σ : scan_state) :
  for_each (l1 ++ l2) body σ
  = match for_each l1 body σ with
    | (Ok _, σ') => for_each l2 body σ'
    | (Err e, σ') => (Err e, σ')
    end.
Proof.
  revert σ. induction l1 as [|x l1 IH]; intros σ; simpl; [done|].
  unfold scan_bind. destruct (body x σ) as [[[]|e] σ1]; [apply IH|done].
Qed.

Section Garbled.
Context `{Externals}.

Lemma merge_item_lookup (rm1 rm2 : gmap string json) (cid text : string) :
  rm1 !! cid = rm2 !! cid → merge_item rm1 cid text = merge_item rm2 cid text.
Proof. intros Heq. unfold merge_item. by rewrite Heq. Qed.

Lemma scan_line_garbled (bad k0 : string) (e : exn) (rm : gmap string json) :
  bad ≠ "" → json_loads bad = Err e →
  ∃ ws, scan_line bad {| results_map := rm; custom_id := Some (JStr k0) |}
        = (Ok tt, {| results_map := apply_writes ws rm; custom_id := Some (JStr k0) |})
        ∧ ∀ k, k ≠ k0 → written ws k = None.
Proof.
  intros Hbad Hload. unfold scan_line.
  destruct (String.eqb_spec bad "") as [?|_]; [done|].
  unfold try_except, try_body, scan_bind at 1, lift at 1. rewrite Hload.
  unfold except_clause, scan_bind, read_custom_id. simpl.
  destruct (negb (k0 =? ""))%string.
  - exists [(k0, error_record (exn_str e))]. split; [done|].
    intros k Hk. simpl. by destruct (String.eqb_spec k k0).
  - by exists [].
Qed.

Lemma for_each_garbled (pre post : list string) (prev bad k0 : string) (e : exn)
    (σ : scan_state) :
  prev ≠ "" → line_id prev = Some k0 → bad ≠ "" → json_loads bad = Err e →
  ∃ r σ1 σ2,
    for_each (pre ++ prev :: bad :: post) scan_line σ = (r, σ1)
    ∧ for_each (pre ++ prev :: post) scan_line σ = (r, σ2)
    ∧ ∀ k, k ≠ k0 → results_map σ1 !! k = results_map σ2 !! k.
Proof.
  intros Hprev Hk0 Hbad Hload. rewrite !(for_each_app pre).
  destruct (for_each pre scan_line σ) as [[[]|e0] σ0]; [|by eexists _, _, _].
  cbn [for_each]. unfold scan_bind at 1 3.
  rewrite (scan_line_attributed prev k0 σ0) by done.
  set (rm1 := match stored_by prev with
              | Some v => <[k0:=v]> (results_map σ0)
              | None => results_map σ0
              end).
  unfold scan_bind at 1.
  destruct (scan_line_garbled bad k0 e rm1 Hbad Hload) as (ws0 & -> & Hws0).
  destruct (write_only_for_each post (Some (JStr k0))) as (r & c' & ws & Hrun).
  rewrite !Hrun. eexists _, _, _. split; [done|]. split; [done|]. simpl.
  intros k Hk. rewrite !lookup_apply_writes. destruct (written ws k); [done|].
  by rewrite Hws0.
Qed.

End Garbled.

(** X15. A line that is no JSON, right after a line that carries the id
    [k0], reaches no further than [k0]: with the line and without it, the
    line loop raises the same exception or none, and the dictionaries it
    leaves give every item with another id the same record. *)
Theorem garbled_line_reaches_one_id `{Externals} (text_with text_without : string)
    (pre post : list string) (prev bad k0 : string) (e : exn) :
  split_lines (strip text_with) = pre ++ prev :: bad :: post →
  split_lines (strip text_without) = pre ++ prev :: post →
  prev ≠ "" → line_id prev = Some k0 →
  bad ≠ "" → json_loads bad = Err e →
  (∀ e', scan_lines text_with = Err e' ↔ scan_lines text_without = Err e')
  ∧ ∀ rm rm', scan_lines text_with = Ok rm → scan_lines text_without = Ok rm' →
      ∀ cid text, cid ≠ k0 → merge_item rm cid text = merge_item rm' cid text.
Proof.
  intros Hwith Hwithout Hprev Hk0 Hbad Hload.
  unfold scan_lines. rewrite Hwith, Hwithout.
  destruct (for_each_garbled pre post prev bad k0 e
              {| results_map := ∅; custom_id := None |} Hprev Hk0 Hbad Hload)
    as (r & σ1 & σ2 & -> & -> & Hsame).
  destruct r as [[]|e1]; [|split; [done|by intros ???]].
  split; [done|].
  intros rm rm' [= <-] [= <-] cid text Hcid. by apply merge_item_lookup, Hsame.
Qed.

Lemma garbled_line_reaches_one_id_witness :
  let left_by text :=
    match @scan_lines Sample.lib text with Ok rm => rm | Err _ => ∅ end in
  @merge_item Sample.lib (left_by Sample.document_a_garbled_b) "b" "Nice weather today"
  = @merge_item Sample.lib (left_by Sample.document_ab) "b" "Nice weather today".
Proof.
  intros left_by.
  refine (proj2 (@garbled_line_reaches_one_id Sample.lib Sample.document_a_garbled_b
                   Sample.document_ab [] [Sample.line_b] Sample.line_a Sample.garbled
                   "a" (JSONDecodeError "Expecting value: line 1 column 1 (char 0)")
                   _ _ _ _ _ _)
            (left_by Sample.document_a_garbled_b) (left_by Sample.document_ab) _ _
            "b" "Nice weather today" _).
  - by_computation.
  - by_computation.
  - intros Hempty. vm_compute in Hempty. discriminate Hempty.
  - by_computation.
  - discriminate.
  - by_computation.
  - vm_compute. reflexivity.
  - vm_compute. reflexivity.
  - discriminate.
Defined.

(** ** Duplicate ids in the input *)

Lemma dict_set_keys (k v : string) (d : list (string * string)) :
  (dict_set k v d).*1 = if decide (k ∈ d.*1) then d.*1 else d.*1 ++ [k].
Proof.
  induction d as [|[k' v'] d IH]; [done|]. cbn [dict_set].
  destruct (String.eqb_spec k k') as [->|Hne]; rewrite !fmap_cons; cbn [fst].
  - rewrite decide_True by left. done.
  - rewrite IH. destruct (decide (k ∈ d.*1)) as [Hin|Hout].
    + rewrite decide_True by (by right). done.
    + rewrite decide_False; [done|]. by intros [?|?]%elem_of_cons.
Qed.

Lemma dict_set_elem_of (k v k' t : string) (d : list (string * string)) :
  NoDup d.*1 →
  (k', t) ∈ dict_set k v d ↔ (k' = k ∧ t = v) ∨ (k' ≠ k ∧ (k', t) ∈ d).
Proof.
  induction d as [|[k0 v0] d IH]; cbn [dict_set].
  - intros _. rewrite list_elem_of_singleton. split.
    + intros [= -> ->]. by left.
    + intros [[-> ->]|[_ ?%elem_of_nil]]; done.
  - rewrite fmap_cons. cbn [fst]. intros [Hk0 Hnd]%NoDup_cons. specialize (IH Hnd).
    destruct (String.eqb_spec k k0) as [->|Hne].
    + rewrite !elem_of_cons. split.
      * intros [[= -> ->]|Hin]; [by left|]. right. split; [|by right].
        intros ->. apply Hk0. by apply (list_elem_of_fmap_2 fst) in Hin.
      * intros [[-> ->]|[Hne' [[= -> ->]|Hin]]]; [by left|done|by right].
    + rewrite !elem_of_cons, IH. split.
      * intros [[= -> ->]|[[-> ->]|[Hne' Hin]]]; [right; split; [done|by left]|by left|].
        right. split; [done|by right].
      * intros [[-> ->]|[Hne' [[= -> ->]|Hin]]]; [right; by left|by left|].
        right. right. done.
Qed.

Lemma original_map_of_snoc (comments : list CommentInput) (c : CommentInput) :
  original_map_of (comments ++ [c])
  = dict_set (comment_id c) (comment_text c) (original_map_of comments).
Proof. unfold original_map_of. by rewrite fold_left_app. Qed.

Lemma original_map_of_NoDup (comments : list CommentInput) :
  NoDup (original_map_of comments).*1.
Proof.
  induction comments as [|c comments IH] using rev_ind; [constructor|].
  rewrite original_map_of_snoc, dict_set_keys. case_decide as Hin; [done|].
  apply NoDup_app. split; [done|]. split; [|apply NoDup_singleton].
  intros k Hk ->%list_elem_of_singleton. done.
Qed.

Lemma original_map_of_elem_of (comments : list CommentInput) (k t : string) :
  (k, t) ∈ original_map_of comments
  ↔ ∃ c, last_with_id k comments = Some c ∧ comment_text c = t.
Proof.
  unfold last_with_id. revert t.
  induction comments as [|c comments IH] using rev_ind; intros t.
  - split; [by intros ?%elem_of_nil|by intros (c & ? & _)].
  - rewrite original_map_of_snoc, dict_set_elem_of by apply original_map_of_NoDup.
    rewrite filter_app, filter_cons, filter_nil.
    destruct (decide (comment_id c = k)) as [<-|Hne].
    + rewrite last_snoc. split.
      * intros [[_ ->]|[? _]]; [eauto|done].
      * intros (c' & [= <-] & <-). by left.
    + rewrite app_nil_r, IH. split.
      * intros [[-> _]|[_ ?]]; done.
      * intros Hc. right. split; [congruence|done].
Qed.

Lemma last_with_id_is_Some (comments : list CommentInput) (k : string) :
  is_Some (last_with_id k comments) ↔ k ∈ map comment_id comments.
Proof.
  unfold last_with_id. rewrite list_elem_of_fmap. split.
  - intros [c Hc]. apply last_Some_elem_of, list_elem_of_filter in Hc as [<- Hc]. eauto.
  - intros (c & -> & Hc).
    destruct (last (filter (λ c', comment_id c' = comment_id c) comments)) eqn:Hlast;
      [done|].
    apply last_None in Hlast.
    assert (c ∈ filter (λ c', comment_id c' = comment_id c) comments) as Hin
      by (by apply list_elem_of_filter).
    rewrite Hlast in Hin. by apply elem_of_nil in Hin.
Qed.

Lemma original_map_of_keys (comments : list CommentInput) (k : string) :
  k ∈ (original_map_of comments).*1 ↔ k ∈ map comment_id comments.
Proof.
  rewrite <- last_with_id_is_Some. split.
  - intros ([k' t] & -> & Hin)%list_elem_of_fmap. simpl.
    apply original_map_of_elem_of in Hin as (c & -> & _). done.
  - intros [c Hc]. apply list_elem_of_fmap. exists (k, comment_text c). split; [done|].
    apply original_map_of_elem_of. eauto.
Qed.

(** X16. The dictionary of the original texts keeps one entry per distinct
    id of the input: its keys are the ids of the input without repetition,
    the text under an id is the text of the last item that carries it, and
    an item whose id came before leaves the order of the keys as it is. *)
Theorem original_map_keeps_last_text (comments : list CommentInput) :
  NoDup (original_map_of comments).*1
  ∧ (∀ k, k ∈ (original_map_of comments).*1 ↔ k ∈ map comment_id comments)
  ∧ (∀ k t, (k, t) ∈ original_map_of comments
            ↔ ∃ c, last_with_id k comments = Some c ∧ comment_text c = t)
  ∧ ∀ c, (original_map_of (comments ++ [c])).*1
         = if decide (comment_id c ∈ map comment_id comments)
           then (original_map_of comments).*1
           else (original_map_of comments).*1 ++ [comment_id c].
Proof.
  pose proof (original_map_of_keys comments) as Hkeys.
  split; [apply original_map_of_NoDup|]. split; [done|].
  split; [apply original_map_of_elem_of|].
  intros c. rewrite original_map_of_snoc, dict_set_keys.
  destruct (decide (comment_id c ∈ (original_map_of comments).*1)) as [Hin|Hout].
  - by rewrite decide_True by (by apply Hkeys).
  - by rewrite decide_False by (by rewrite <- Hkeys).
Qed.

Lemma zipped_elem_of (out : list AnalyzedComment) (items : list (string * string))
    (r : AnalyzedComment) :
  map ac_id out = items.*1 → map ac_text out = items.*2 → r ∈ out →
  (ac_id r, ac_text r) ∈ items.
Proof.
  revert items. induction out as [|r' out IH]; intros [|[k t] items]; try done.
  - by intros _ _ ?%elem_of_nil.
  - cbn [map fmap list_fmap fst snd]. intros [= <- Hid] [= <- Htext].
    intros [->|Hin]%elem_of_cons; [left|right; by apply IH].
Qed.

(** X17. Whatever the ids of the input, the records the reconciler returns
    carry each distinct input id exactly once, so never more records than
    items, and the text of a record is the text of the last item under its
    id. *)
Theorem records_carry_distinct_ids `{Externals} (comments : list CommentInput)
    (text_content : string) (out : list AnalyzedComment) :
  reconcile text_content (original_map_of comments) = Ok out →
  NoDup (map ac_id out)
  ∧ (∀ k, k ∈ map ac_id out ↔ k ∈ map comment_id comments)
  ∧ (length out ≤ length comments)%nat
  ∧ ∀ r, r ∈ out →
      ∃ c, last_with_id (ac_id r) comments = Some c ∧ ac_text r = comment_text c.
Proof.
  intros (rm & _ & Hmerge)%reconcile_inv.
  apply merge_results_inv in Hmerge as (Hid & Htext & _).
  pose proof (original_map_of_keys comments) as Hkeys.
  split; [rewrite Hid; apply original_map_of_NoDup|].
  split; [intros k; by rewrite Hid|]. split.
  - rewrite <- (length_map ac_id out), Hid, <- (length_map comment_id comments).
    apply submseteq_length, NoDup_submseteq; [apply original_map_of_NoDup|].
    intros k. apply Hkeys.
  - intros r Hr. apply (zipped_elem_of out _ r Hid Htext) in Hr.
    apply original_map_of_elem_of in Hr as (c & Hc & Ht). eauto.
Qed.

Lemma records_carry_distinct_ids_witness :
  (length [ {| ac_id := "a"; ac_text := "Nice weather today";
               analysis := Some Sample.validated_a; error := None |} ]
   ≤ length [Sample.comment_a; Sample.comment_a_again])%nat.
Proof.
  refine (proj1 (proj2 (proj2
            (@records_carry_distinct_ids Sample.lib
               [Sample.comment_a; Sample.comment_a_again] Sample.line_a _ _)))).
  by_computation.
Defined.

(** ** What the endpoint answers and what it leaves behind *)

Lemma remove_dups_length_le {A} `{EqDecision A} (l : list A) :
  (length (remove_dups l) ≤ length l)%nat.
Proof.
  induction l as [|x l IH]; [done|]. simpl.
  destruct (decide_rel elem_of x l); simpl; lia.
Qed.

Lemma remove_dups_length_NoDup {A} `{EqDecision A} (l : list A) :
  length (remove_dups l) = length l ↔ NoDup l.
Proof.
  split.
  - induction l as [|x l IH]; [constructor|]. simpl.
    pose proof (remove_dups_length_le l) as Hle.
    destruct (decide_rel elem_of x l) as [Hin|Hout]; simpl; [lia|].
    intros [= Hlen]. constructor; [done|by apply IH].
  - induction 1 as [|x l Hout Hnd IH]; [done|]. simpl.
    destruct (decide_rel elem_of x l); [done|]. simpl. by rewrite IH.
Qed.

Lemma original_map_of_length (comments : list CommentInput) :
  length (original_map_of comments) = length (remove_dups (map comment_id comments)).
Proof.
  rewrite <- (length_fmap fst (original_map_of comments)).
  apply Permutation_length, NoDup_Permutation.
  - apply original_map_of_NoDup.
  - apply NoDup_remove_dups.
  - intros k. rewrite original_map_of_keys, elem_of_remove_dups. done.
Qed.

Lemma analyze_batch_endpoint_completed `{Externals} (B : backend) (request : BatchRequest)
    (w w' : world) (resp : BatchResponse) :
  analyze_batch_endpoint B request w = (Return resp, w') →
  comments request ≠ []
  ∧ ∃ text_content,
      reconcile text_content (original_map_of (comments request)) = Ok (results resp)
      ∧ total_processed resp = length (results resp)
      ∧ status resp = "completed".
Proof.
  intros Hrun.
  destruct (decide (comments request = [])) as [Hempty|Hne].
  { by rewrite analyze_batch_endpoint_empty in Hrun. }
  split; [done|].
  destruct (write_error B) as [e|] eqn:Hwrite.
  { revert Hrun. unfold analyze_batch_endpoint.
    destruct (comments request); [done|].
    unfold io_bind at 1, named_temporary_file.
    unfold io_bind at 1, temp_write, call, io_bind at 1, emit. by rewrite Hwrite. }
  destruct (analyze_batch_endpoint_run B request w Hne Hwrite) as (o & evs & Hpipe & Hend).
  rewrite Hend in Hrun. destruct o as [resp'| |]; [|done..].
  injection Hrun as -> _.
  by apply pipeline_return_inv in Hpipe.
Qed.

(** X18. A response of the endpoint has status "completed", and its
    [total_processed] is the number of its records, which is the number of
    distinct ids of the request: at least one, at most the number of items,
    and the number of items exactly when no id is repeated. *)
Theorem response_counts_distinct_ids `{Externals} (B : backend) (request : BatchRequest)
    (w w' : world) (resp : BatchResponse) :
  analyze_batch_endpoint B request w = (Return resp, w') →
  let ids := map comment_id (comments request) in
  status resp = "completed"
  ∧ total_processed resp = length (results resp)
  ∧ total_processed resp = length (remove_dups ids)
  ∧ (1 ≤ total_processed resp ≤ length (comments request))%nat
  ∧ (total_processed resp = length (comments request) ↔ NoDup ids).
Proof.
  intros (Hne & text_content & Hrec & Htotal & Hstatus)%analyze_batch_endpoint_completed ids.
  apply reconcile_inv in Hrec as (rm & _ & Hmerge).
  apply merge_results_inv in Hmerge as (Hid & _ & _).
  assert (total_processed resp = length (remove_dups ids)) as Hcount.
  { rewrite Htotal, <- (length_map ac_id (results resp)), Hid, length_fmap.
    apply original_map_of_length. }
  assert (length ids = length (comments request)) as Hids by apply length_map.
  split; [done|]. split; [done|]. split; [done|]. split.
  - rewrite Hcount. split; [|rewrite <- Hids; apply remove_dups_length_le].
    destruct (comments request) as [|c cs] eqn:Hcs; [done|]. subst ids. simpl.
    destruct (decide_rel elem_of (comment_id c) (map comment_id cs)) as [Hin|Hout];
      [|simpl; lia].
    apply elem_of_remove_dups in Hin.
    destruct (remove_dups (map comment_id cs)); [by apply elem_of_nil in Hin|simpl; lia].
  - rewrite Hcount, <- Hids. apply remove_dups_length_NoDup.
Qed.

Lemma response_counts_distinct_ids_witness :
  let request := {| comments := [Sample.comment_a; Sample.comment_a_again] |} in
  ∃ resp w',
    @analyze_batch_endpoint Sample.lib (Sample.serving Sample.line_a) request
      Sample.empty_world = (Return resp, w')
    ∧ total_processed resp = 1%nat.
Proof.
  intros request. eexists _, _.
  refine ((λ Hrun, conj Hrun (proj1 (proj2 (proj2
             (@response_counts_distinct_ids Sample.lib (Sample.serving Sample.line_a)
                request Sample.empty_world _ _ Hrun))))) _).
  vm_compute. reflexivity.
Defined.

(** X19. Whatever the request and whatever the backend does, the endpoint
    creates and removes no local file other than its temporary file: at
    every exit, and while it is still waiting, any other path exists exactly
    when it existed before the call. *)
Theorem only_the_temp_file_is_touched `{Externals} (B : backend) (request : BatchRequest)
    (w w' : world) (o : outcome BatchResponse) (path : string) :
  analyze_batch_endpoint B request w = (o, w') →
  path ≠ temp_name B →
  path ∈ files w' ↔ path ∈ files w.
Proof.
  intros Hrun Hother.
  assert (∀ X : gset string, path ∈ {[temp_name B]} ∪ X ↔ path ∈ X) as Hadd.
  { intros X. rewrite elem_of_union, elem_of_singleton. tauto. }
  assert (∀ X : gset string, path ∈ X ∖ {[temp_name B]} ↔ path ∈ X) as Hdel.
  { intros X. rewrite elem_of_difference, elem_of_singleton. tauto. }
  destruct (decide (comments request = [])) as [Hempty|Hne].
  { rewrite analyze_batch_endpoint_empty in Hrun by done. by injection Hrun as <- <-. }
  destruct (write_error B) as [e|] eqn:Hwrite.
  { revert Hrun. unfold analyze_batch_endpoint.
    destruct (comments request); [done|].
    unfold io_bind at 1, named_temporary_file.
    unfold io_bind at 1, temp_write, call, io_bind at 1, emit. rewrite Hwrite. simpl.
    intros [= <- <-]. simpl. apply Hadd. }
  destruct (analyze_batch_endpoint_run B request w Hne Hwrite) as (o' & evs & Hpipe & Hend).
  rewrite Hend in Hrun.
  destruct o' as [resp|e|]; injection Hrun as <- <-; simpl;
    rewrite ?Hdel; apply Hadd.
Qed.

Lemma only_the_temp_file_is_touched_witness :
  let request := {| comments := [Sample.comment_a; Sample.comment_b] |} in
  let before := {| files := {["notes.txt"]}; trace := [] |} in
  "notes.txt"
  ∈ files (snd (@analyze_batch_endpoint Sample.lib (Sample.serving Sample.line_a)
                  request before)).
Proof.
  intros request before.
  refine (proj2 (@only_the_temp_file_is_touched Sample.lib (Sample.serving Sample.line_a)
                   request before _ _ "notes.txt" (surjective_pairing _) _) _).
  - vm_compute. discriminate.
  - vm_compute. reflexivity.
Defined.

(** ** The request document as an encoding of the batch *)

Lemma string_app_assoc (a b c : string) : (a +:+ b) +:+ c = a +:+ (b +:+ c).
Proof.
  induction a as [|x a IH]; [done|].
  change (String x ((a +:+ b) +:+ c) = String x (a +:+ (b +:+ c))). by rewrite IH.
Qed.

Lemma string_app_length (a b : string) :
  String.length (a +:+ b) = (String.length a + String.length b)%nat.
Proof.
  induction a as [|x a IH]; [done|].
  change (S (String.length (a +:+ b)) = S (String.length a + String.length b)).
  by rewrite IH.
Qed.

Lemma string_app_inv_tail (a b s : string) : a +:+ s = b +:+ s → a = b.
Proof.
  revert b. induction a as [|x a IH]; intros [|y b] Heq; [done| | |].
  - apply (f_equal String.length) in Heq.
    rewrite (string_app_length (String y b) s) in Heq.
    change ("" +:+ s) with s in Heq. simpl in Heq. lia.
  - apply (f_equal String.length) in Heq.
    rewrite (string_app_length (String x a) s) in Heq.
    change ("" +:+ s) with s in Heq. simpl in Heq. lia.
  - change (String x (a +:+ s) = String y (b +:+ s)) in Heq.
    injection Heq as -> Heq. f_equal. by apply IH.
Qed.

Lemma join_lines_app (xs ys : list string) :
  xs ≠ [] → ys ≠ [] →
  join_lines (xs ++ ys) = join_lines xs +:+ String newline (join_lines ys).
Proof.
  intros Hxs Hys. induction xs as [|l xs IH]; [done|]. clear Hxs.
  destruct xs as [|l' xs].
  - by destruct ys.
  - change (join_lines ((l :: l' :: xs) ++ ys))
      with (l +:+ String newline (join_lines ((l' :: xs) ++ ys))).
    rewrite IH by done.
    change (join_lines (l :: l' :: xs))
      with (l +:+ String newline (join_lines (l' :: xs))).
    by rewrite string_app_assoc.
Qed.

Lemma prompt_text_inj (c c' : CommentInput) :
  prompt_text c = prompt_text c' → comment_text c = comment_text c'.
Proof.
  unfold prompt_text. intros Heq.
  apply (inj (String.app _)) in Heq. apply (inj (String.app _)) in Heq.
  by apply string_app_inv_tail in Heq.
Qed.

Lemma request_body_inj (schema_dict : json) (c c' : CommentInput) :
  request_body schema_dict c = request_body schema_dict c' → c = c'.
Proof.
  unfold request_body. intros Heq.
  assert (JStr (prompt_text c) = JStr (prompt_text c')) as Htext by congruence.
  assert (JStr (comment_id c) = JStr (comment_id c')) as Hid by congruence.
  assert (∀ a b, JStr a = JStr b → a = b) as Hstr by (by intros a b [= ->]).
  apply Hstr, prompt_text_inj in Htext. apply Hstr in Hid.
  destruct c, c'; simpl in *; congruence.
Qed.

Lemma line_id_request `{Externals} (c : CommentInput) :
  read_back c →
  line_id (json_dumps (request_body model_json_schema c)) = Some (comment_id c).
Proof. intros [_ Hloads]. unfold line_id. by rewrite Hloads. Qed.

(** X20. The request document of a batch put together from two non-empty
    batches is the document of the first, a line break, and the document of
    the second: the encoder writes no header, no trailing line break, and
    nothing that depends on the position of an item. *)
Theorem create_jsonl_content_app `{Externals} (xs ys : list CommentInput) :
  xs ≠ [] → ys ≠ [] →
  create_jsonl_content (xs ++ ys)
  = create_jsonl_content xs +:+ String newline (create_jsonl_content ys).
Proof.
  intros Hxs Hys. unfold create_jsonl_content. cbv zeta. rewrite map_app.
  apply join_lines_app; by destruct xs, ys.
Qed.

Lemma create_jsonl_content_app_witness :
  @create_jsonl_content Sample.lib [Sample.comment_a; Sample.comment_b]
  = @create_jsonl_content Sample.lib [Sample.comment_a]
    +:+ String newline (@create_jsonl_content Sample.lib [Sample.comment_b]).
Proof.
  refine (@create_jsonl_content_app Sample.lib [Sample.comment_a] [Sample.comment_b] _ _);
    discriminate.
Defined.

(** X21. The correlation id survives the encoding: when [json.loads] reads
    back what [json.dumps] wrote for the requests of a non-empty batch, each
    on one line, the id the reconciler reads from line [i] of the request
    document is the id of item [i]. *)
Theorem request_lines_carry_the_ids `{Externals} (comments : list CommentInput) :
  comments ≠ [] → Forall read_back comments →
  map line_id (split_lines (create_jsonl_content comments))
  = map (λ c, Some (comment_id c)) comments.
Proof.
  intros Hne Hall. rewrite create_jsonl_content_split; [|done|].
  - rewrite map_map. apply map_ext_Forall.
    eapply Forall_impl; [exact Hall|]. intros c Hc. by apply line_id_request.
  - eapply Forall_impl; [exact Hall|]. by intros c [Hc _].
Qed.

(** X22. The batch can be recovered from its request document: under the
    same reading back, two non-empty batches with the same document are the
    same list of items, ids and texts alike. *)
Theorem document_determines_batch `{Externals} (xs ys : list CommentInput) :
  xs ≠ [] → ys ≠ [] → Forall read_back xs → Forall read_back ys →
  create_jsonl_content xs = create_jsonl_content ys → xs = ys.
Proof.
  intros Hxs Hys Hrx Hry Heq.
  apply (f_equal split_lines) in Heq.
  assert (∀ cs, Forall read_back cs →
            Forall (λ c, single_line (json_dumps (request_body model_json_schema c)) = true)
              cs) as Hone.
  { intros cs Hcs. eapply Forall_impl; [exact Hcs|]. by intros c [Hc _]. }
  rewrite (create_jsonl_content_split xs Hxs (Hone xs Hrx)) in Heq.
  rewrite (create_jsonl_content_split ys Hys (Hone ys Hry)) in Heq.
  clear Hxs Hys. revert ys Hry Heq.
  induction Hrx as [|x xs [_ Hx] _ IH]; intros ys Hry Heq.
  - by destruct ys.
  - destruct Hry as [|y ys [_ Hy] Hry]; [done|].
    simpl in Heq. injection Heq as Hline Hrest.
    f_equal; [|by apply IH].
    apply (request_body_inj model_json_schema).
    cbv zeta in Hx, Hy. rewrite Hline in Hx. congruence.
Qed.

Lemma read_back_sample :
  Forall (@read_back Sample.echo) [Sample.comment_a; Sample.comment_b].
Proof.
  constructor; [vm_compute; split; reflexivity|].
  constructor; [vm_compute; split; reflexivity|]. constructor.
Defined.

Lemma request_lines_carry_the_ids_witness :
  map (@line_id Sample.echo)
    (split_lines (@create_jsonl_content Sample.echo [Sample.comment_a; Sample.comment_b]))
  = [Some "a"; Some "b"].
Proof.
  refine (@request_lines_carry_the_ids Sample.echo [Sample.comment_a; Sample.comment_b]
            _ read_back_sample).
  discriminate.
Defined.

Lemma document_determines_batch_witness :
  [Sample.comment_a; Sample.comment_b] = [Sample.comment_a; Sample.comment_b].
Proof.
  refine (@document_determines_batch Sample.echo
            [Sample.comment_a; Sample.comment_b] [Sample.comment_a; Sample.comment_b]
            _ _ read_back_sample read_back_sample _).
  - discriminate.
  - discriminate.
  - reflexivity.
Defined.

(** ** Lines that leave no trace *)

Section Ignored.
Context `{Externals}.

Lemma merge_results_ext (rm1 rm2 : gmap string json) (items : list (string * string)) :
  (∀ cid, cid ∈ items.*1 → rm1 !! cid = rm2 !! cid) →
  merge_results rm1 items = merge_results rm2 items.
Proof.
  induction items as [|[cid text] items IH]; intros Hsame; [done|].
  cbn [merge_results]. rewrite (merge_item_lookup rm1 rm2) by (apply Hsame; left).
  rewrite IH; [done|]. intros cid' Hin. apply Hsame. by right.
Qed.

(** A line whose writes reach none of the requested ids can be dropped from
    an attributable document. *)
Lemma reconcile_without_line (text_with text_without : string) (pre post : list string)
    (line : string) (items : list (string * string)) :
  split_lines (strip text_with) = pre ++ line :: post →
  split_lines (strip text_without) = pre ++ post →
  Forall attributable (pre ++ line :: post) →
  (∀ cid, cid ∈ items.*1 → written (document_writes [line]) cid = None) →
  reconcile text_with items = reconcile text_without items.
Proof.
  intros Hwith Hwithout Hall Hline.
  assert (Forall attributable (pre ++ post)) as Hall'.
  { apply Forall_app in Hall as [Hpre Hpost]. apply Forall_cons in Hpost as [_ Hpost].
    by apply Forall_app. }
  unfold reconcile.
  rewrite !scan_lines_attributed by (by rewrite ?Hwith, ?Hwithout).
  rewrite Hwith, Hwithout. cbn [rbind]. apply merge_results_ext. intros cid Hcid.
  rewrite !lookup_apply_writes, !lookup_empty.
  change (line :: post) with ([line] ++ post).
  rewrite !document_writes_app, !written_app, (Hline cid Hcid).
  by destruct (written (document_writes post) cid).
Qed.


End Ignored.

(** X23. A line of the output document under an id nobody asked for changes
    nothing: in a document whose lines are empty or carry a correlation id,
    the reconciled result is the same with and without a line whose id is
    not an id of the request. *)
Theorem unrequested_id_is_ignored `{Externals} (text_with text_without : string)
    (pre post : list string) (line k : string) (items : list (string * string)) :
  split_lines (strip text_with) = pre ++ line :: post →
  split_lines (strip text_without) = pre ++ post →
  Forall attributable (pre ++ post) →
  line_id line = Some k → k ∉ items.*1 →
  reconcile text_with items = reconcile text_without items.
Proof.
  intros Hwith Hwithout Hall Hk Hout.
  apply (reconcile_without_line _ _ pre post line); [done..| |].
  - apply Forall_app in Hall as [Hpre Hpost]. apply Forall_app. split; [done|].
    constructor; [|done]. right. by rewrite Hk.
  - intros cid Hcid. apply written_None. intros Hin%document_writes_keys.
    simpl in Hin. rewrite Hk in Hin. simpl in Hin.
    apply list_elem_of_singleton in Hin as ->. done.
Qed.

Lemma unrequested_id_is_ignored_witness :
  @reconcile Sample.lib Sample.document_ab (original_map_of [Sample.comment_b])
  = @reconcile Sample.lib Sample.line_b (original_map_of [Sample.comment_b]).
Proof.
  refine (@unrequested_id_is_ignored Sample.lib Sample.document_ab Sample.line_b
            [] [Sample.line_b] Sample.line_a "a" _ _ _ _ _ _).
  - by_computation.
  - by_computation.
  - constructor; [apply attributable_line_b|constructor].
  - by_computation.
  - apply (bool_decide_unpack _). by_computation.
Defined.


